(** * Checkout engine of the POS backend

    Source: the Express server in [src/backend/prisma/seed.ts] (the part
    that begins with [import express from 'express']), with the totals of
    [src/frontend/src/pages/Cashier.tsx] where a statement needs them.

    A shallow embedding of the Express handlers under [/api/checkout/*]:
    [start], [add], [discount], [updateLine], [removeLine] and [complete],
    together with the part of the Prisma store they read and write.

    Beside them: the receipt lookup [GET /api/receipts/:number], the
    daily report [GET /api/reports/daily_z], the settings handlers
    [GET] and [PUT /api/admin/settings], the text helpers [pad], [lr] and
    [esc] of the printable receipts, and the totals and tender functions
    of the cashier page.

    Modelling decisions, stated once:

    - JavaScript numbers that carry money, quantities and rates are
      rationals ([Q]) with exact arithmetic; statements about them use
      [Qeq] ([==]).  The binary rounding of IEEE doubles is not modelled.
    - Request fields are JSON scalars ([jsval]: absent, null, boolean or
      number).  String and object payloads in numeric fields are outside
      the model.  [Number(lineIndex)] keeps its [NaN] ([jsnum]), since the
      handlers branch on it.
    - [carts] is the process-wide dictionary, a [gmap string Cart]; keys
      are the uuids handed out by [start].
    - Prisma calls of [complete] sit in a [try]/[catch]; each call may
      throw.  They run in a small state-and-exception monad over the
      database and a script of faults chosen by the environment.  So
      does the tax lookup of [updateLine], which sits in a [try] block
      too.  The lookups of [add] sit in no [try] block and come before
      its only write; they are modelled as total reads of the database
      value.
    - [uuid()], [Date.now()] and [Math.random()] are inputs of the
      handler that consumes them.
    - Handlers run one at a time, each to completion.
    - Texts are strings of one-byte characters; the length of a text is
      its number of characters.  Text outside ASCII is outside the model.
    - The daily report is modelled from the receipts that its query has
      found: the filter on date and status is the database's.
    - The [Setting] table is a list of rows of its own, next to [Db];
      the body of a PUT is the list that [Object.entries] gives.
    - Keys of the report's summary and of the settings map that name a
      property of [Object.prototype] are outside the model. *)

From Stdlib Require Import QArith Qround Qabs Qminmax Ascii Lqa.
From stdpp Require Import gmap strings list pretty.

(** ** Numbers and request values *)

(** A JavaScript number as the index computations see it. *)
Inductive jsnum : Type :=
| Fin (q : Q)
| NaN.

(** A JSON scalar found in a request body; [JUndefined] is an absent field. *)
Inductive jsval : Type :=
| JUndefined
| JNull
| JBool (b : bool)
| JNumber (q : Q).

Definition boolQ (b : bool) : Q := if b then 1%Q else 0%Q.

(** [Number(v)]. *)
Definition Number (v : jsval) : jsnum :=
  match v with
  | JUndefined => NaN
  | JNull => Fin 0
  | JBool b => Fin (boolQ b)
  | JNumber q => Fin q
  end.

(** [const { x = d } = body] followed by a numeric use of [x]: the default
    replaces an absent field only; [null] coerces to [0]. *)
Definition numOr (d : Q) (v : jsval) : Q :=
  match v with
  | JUndefined => d
  | JNull => 0%Q
  | JBool b => boolQ b
  | JNumber q => q
  end.

(** [v != null ? Number(v) : <skip>]. *)
Definition notNull (v : jsval) : option Q :=
  match v with
  | JUndefined | JNull => None
  | JBool b => Some (boolQ b)
  | JNumber q => Some q
  end.

(** [toNum]: [v == null ? 0 : typeof v === 'number' ? v : Number(v)]. *)
Definition toNum (v : jsval) : Q :=
  match v with
  | JUndefined | JNull => 0%Q
  | JNumber q => q
  | JBool b => boolQ b
  end.

(** [x || 0] on a number: [0] is the only falsy finite number. *)
Definition orZero (x : Q) : Q := if Qeq_bool x 0 then 0%Q else x.

(** [x <= 0] where [x] is a JavaScript number: false on [NaN]. *)
Definition jsLe0 (x : jsnum) : bool :=
  match x with
  | Fin q => Qle_bool q 0
  | NaN => false
  end.

Definition jsLt0 (x : jsnum) : bool :=
  match x with
  | Fin q => negb (Qle_bool 0 q)
  | NaN => false
  end.

(** [x >= n] for an array length [n]: false on [NaN]. *)
Definition jsGeLen (x : jsnum) (n : nat) : bool :=
  match x with
  | Fin q => Qle_bool (inject_Z (Z.of_nat n)) q
  | NaN => false
  end.

(** ** Arrays addressed by a JavaScript number *)

(** [ToIntegerOrInfinity]: [NaN] becomes [0], a fraction is truncated
    towards zero. *)
Definition toInteger (x : jsnum) : Z :=
  match x with
  | NaN => 0%Z
  | Fin q => if Qle_bool 0 q then Qfloor q else Qceiling q
  end.

(** The position that [arr[x]] reads in an array of length [n]: defined
    only when [x] is a non-negative integer below the length; any other
    key is not an element of the array. *)
Definition arrayIndex (n : nat) (x : jsnum) : option nat :=
  match x with
  | NaN => None
  | Fin q =>
      if Qeq_bool q (inject_Z (Qfloor q)) && (0 <=? Qfloor q)%Z
         && (Z.to_nat (Qfloor q) <? n)%nat
      then Some (Z.to_nat (Qfloor q))
      else None
  end.

(** [arr[x]]: the element read, with the position it sits at (the handler
    goes on to mutate that element in place). *)
Definition arrayGet {A} (l : list A) (x : jsnum) : option (nat * A) :=
  match arrayIndex (length l) x with
  | Some i =>
      match l !! i with
      | Some a => Some (i, a)
      | None => None
      end
  | None => None
  end.

(** [arr.splice(start, 1)], returning the array left behind. *)
Definition splice1 {A} (l : list A) (start : jsnum) : list A :=
  let len := Z.of_nat (length l) in
  let rel := toInteger start in
  let actualStart := if (rel <? 0)%Z then Z.max (len + rel) 0 else Z.min rel len in
  let deleteCount := Z.min 1 (len - actualStart) in
  take (Z.to_nat actualStart) l ++ drop (Z.to_nat (actualStart + deleteCount)) l.

(** ** Data model *)

Record CartLine : Type := mkCartLine {
  itemId : Z;
  quantity : Q;
  unitPrice : Q;
  discount : Q;
  taxRateId : option Z;
  taxAmount : Q;
  lineTotal : Q;
  name : option string
}.

Record Cart : Type := mkCart {
  cartId : string;
  lines : list CartLine
}.

(** Rows of the Prisma store that checkout touches. *)
Record Item : Type := mkItem {
  item_id : Z;
  item_name : string;
  mrp : Q;
  taxId : option Z
}.

Record Tax : Type := mkTax {
  tax_id : Z;
  rate : Q
}.

Record PaymentMethod : Type := mkPaymentMethod {
  pm_id : Z;
  pm_code : option string;
  pm_name : string
}.

Record Payment : Type := mkPayment {
  amount : Q;
  reference : option string;
  status : string;
  paymentMethodId : Z
}.

Record ReceiptLine : Type := mkReceiptLine {
  rl_itemId : Z;
  rl_quantity : Q;
  rl_unitPrice : Q;
  rl_discount : Q;
  rl_taxAmount : Q;
  rl_lineTotal : Q;
  rl_taxRateId : option Z
}.

Record Receipt : Type := mkReceipt {
  receiptNumber : string;
  customerId : option Z;
  totalBeforeDiscount : Q;
  totalDiscount : Q;
  totalTax : Q;
  totalAmount : Q;
  cgst : Q;
  sgst : Q;
  igst : Q;
  cess : Q;
  receiptStatus : string;
  receiptLines : list ReceiptLine;
  payments : list Payment
}.

Record StockLedger : Type := mkStockLedger {
  sl_itemId : Z;
  sl_quantity : Q;
  unitCost : Q;
  sl_type : string;
  sl_reference : string
}.

Record Db : Type := mkDb {
  items : list Item;
  barcodes : list (string * Z);
  taxes : list Tax;
  paymentMethods : list PaymentMethod;
  receipts : list Receipt;
  stockLedger : list StockLedger
}.

(** The server: the in-memory cart dictionary and the database. *)
Record Server : Type := mkServer {
  carts : gmap string Cart;
  db : Db
}.

(** What a handler sends back: the JSON body, or a status with an error
    message. *)
Inductive Response (A : Type) : Type :=
| Ok (body : A)
| Err (code : Z) (msg : string).
Arguments Ok {A} body.
Arguments Err {A} code msg.

(** A database id is truthy when present and not [0]. *)
Definition truthyId (i : option Z) : option Z :=
  match i with
  | Some z => if (z =? 0)%Z then None else Some z
  | None => None
  end.

(** ** Reads *)

Definition findItem (d : Db) (i : Z) : option Item :=
  find (fun it => (item_id it =? i)%Z) (items d).

Definition findBarcode (d : Db) (code : string) : option Item :=
  match find (fun bc => String.eqb (fst bc) code) (barcodes d) with
  | Some bc => findItem d (snd bc)
  | None => None
  end.

Definition findTax (d : Db) (i : Z) : option Tax :=
  find (fun t => (tax_id t =? i)%Z) (taxes d).

(** ** Prisma calls that may throw *)

(** The database together with the script of faults still to come: the
    head says whether the next Prisma call throws, and with which message.
    An exhausted script means no further call throws. *)
Record World : Type := mkWorld {
  w_db : Db;
  w_faults : list (option string)
}.

Inductive Outcome (A : Type) : Type :=
| Returned (a : A)
| Thrown (msg : string).
Arguments Returned {A} a.
Arguments Thrown {A} msg.

Definition Prisma (A : Type) : Type := World -> World * Outcome A.

#[global] Instance Prisma_ret : MRet Prisma :=
  fun A a w => (w, Returned a).

#[global] Instance Prisma_bind : MBind Prisma :=
  fun A B k m w =>
    match m w with
    | (w', Returned a) => k a w'
    | (w', Thrown e) => (w', Thrown e)
    end.

(** [try { m } catch { h }]. *)
Definition tryCatch {A} (m : Prisma A) (h : string -> Prisma A) : Prisma A :=
  fun w =>
    match m w with
    | (w', Thrown e) => h e w'
    | r => r
    end.

(** One awaited Prisma call: it throws if the script says so, leaving the
    database as it was; otherwise it runs. *)
Definition prismaCall {A} (op : Db -> Db * A) : Prisma A :=
  fun w =>
    match w_faults w with
    | Some e :: fs => (mkWorld (w_db w) fs, Thrown e)
    | None :: fs => let '(d, a) := op (w_db w) in (mkWorld d fs, Returned a)
    | [] => let '(d, a) := op (w_db w) in (mkWorld d [], Returned a)
    end.

(** ** Cart handlers *)

(** [POST /api/checkout/start]; [newId] is the value of [uuid()]. *)
Definition start (newId : string) (s : Server) : Server * Response Cart :=
  let cart := mkCart newId [] in
  (mkServer (<[newId := cart]> (carts s)) (db s), Ok cart).

Record AddReq : Type := mkAddReq {
  add_cartId : string;
  add_itemId : option Z;
  add_barcode : option string;
  add_qty : jsval
}.

(** A barcode or item id is used when truthy: a non-empty string, a
    non-zero number. *)
Definition truthyStr (o : option string) : option string :=
  match o with
  | Some s => if String.eqb s "" then None else Some s
  | None => None
  end.

(** [POST /api/checkout/add]. *)
Definition add (r : AddReq) (s : Server) : Server * Response Cart :=
  match carts s !! add_cartId r with
  | None => (s, Err 404 "Cart not found")
  | Some cart =>
      let item :=
        match truthyStr (add_barcode r) with
        | Some bc => findBarcode (db s) bc
        | None =>
            match truthyId (add_itemId r) with
            | Some i => findItem (db s) i
            | None => None
            end
        end in
      match item with
      | None => (s, Err 404 "Item not found")
      | Some item =>
          let qty := numOr 1 (add_qty r) in
          let unitPrice := mrp item in
          let '(taxRateId, taxAmount) :=
            match truthyId (taxId item) with
            | Some tid =>
                match findTax (db s) tid with
                | Some tax => (Some (tax_id tax), (unitPrice * qty * rate tax / 100)%Q)
                | None => (None, 0%Q)
                end
            | None => (None, 0%Q)
            end in
          let line := {|
            itemId := item_id item;
            quantity := qty;
            unitPrice := unitPrice;
            discount := 0;
            taxRateId := taxRateId;
            taxAmount := taxAmount;
            lineTotal := (unitPrice * qty + taxAmount)%Q;
            name := Some (item_name item)
          |} in
          let cart' := mkCart (cartId cart) (lines cart ++ [line]) in
          (mkServer (<[add_cartId r := cart']> (carts s)) (db s), Ok cart')
      end
  end.

Record DiscountReq : Type := mkDiscountReq {
  disc_cartId : string;
  discountPercent : jsval
}.

(** The callback of [cart.lines.map] in the discount handler. *)
Definition discountLine (pct : Q) (l : CartLine) : CartLine :=
  let d := ((unitPrice l * quantity l) * (pct / 100))%Q in
  let t := (unitPrice l * quantity l - d + taxAmount l)%Q in
  {| itemId := itemId l;
     quantity := quantity l;
     unitPrice := unitPrice l;
     discount := d;
     taxRateId := taxRateId l;
     taxAmount := taxAmount l;
     lineTotal := t;
     name := name l |}.

(** [POST /api/checkout/discount]. *)
Definition applyDiscount (r : DiscountReq) (s : Server) : Server * Response Cart :=
  match carts s !! disc_cartId r with
  | None => (s, Err 404 "Cart not found")
  | Some cart =>
      let pct := numOr 0 (discountPercent r) in
      let cart' := mkCart (cartId cart) (map (discountLine pct) (lines cart)) in
      (mkServer (<[disc_cartId r := cart']> (carts s)) (db s), Ok cart')
  end.

Record UpdateLineReq : Type := mkUpdateLineReq {
  upd_cartId : string;
  upd_lineIndex : jsval;
  upd_quantity : jsval;
  upd_unitPrice : jsval;
  upd_discount : jsval
}.

(** The tax rate that [updateLine] reads back for a line: [0] when the
    line has no tax id or the row is gone. *)
Definition taxRatePctOf (d : Db) (tid : option Z) : Q :=
  match truthyId tid with
  | Some t =>
      match findTax d t with
      | Some tx => rate tx
      | None => 0%Q
      end
  | None => 0%Q
  end.

(** The line that [updateLine] leaves when the tax lookup returns: the
    fields given are written, then tax and total are computed anew. *)
Definition repriceLine (d : Db) (r : UpdateLineReq) (l : CartLine) : CartLine :=
  let quantity' := default (quantity l) (notNull (upd_quantity r)) in
  let unitPrice' := default (unitPrice l) (notNull (upd_unitPrice r)) in
  let discount' := default (discount l) (notNull (upd_discount r)) in
  let taxRatePct := taxRatePctOf d (taxRateId l) in
  let base := (unitPrice' * quantity')%Q in
  let taxAmount' := ((base - orZero discount') * (taxRatePct / 100))%Q in
  {| itemId := itemId l;
     quantity := quantity';
     unitPrice := unitPrice';
     discount := discount';
     taxRateId := taxRateId l;
     taxAmount := taxAmount';
     lineTotal := (base - orZero discount' + taxAmount')%Q;
     name := name l |}.

(** [quantity != null && Number(quantity) <= 0]. *)
Definition removesLine (v : jsval) : bool :=
  match notNull v with
  | Some _ => jsLe0 (Number v)
  | None => false
  end.

(** The writes [line.quantity = Number(quantity)],
    [line.unitPrice = Number(unitPrice)] and
    [line.discount = Number(discount)], each made when the field is given.
    They change the line held by the cart; [taxAmount] and [lineTotal] are
    as they were. *)
Definition patchLine (r : UpdateLineReq) (l : CartLine) : CartLine :=
  {| itemId := itemId l;
     quantity := default (quantity l) (notNull (upd_quantity r));
     unitPrice := default (unitPrice l) (notNull (upd_unitPrice r));
     discount := default (discount l) (notNull (upd_discount r));
     taxRateId := taxRateId l;
     taxAmount := taxAmount l;
     lineTotal := lineTotal l;
     name := name l |}.

(** [prisma.tax.findUnique({ where: { id } })]. *)
Definition findUniqueTax (i : Z) : Prisma (option Tax) :=
  prismaCall (fun d => (d, findTax d i)).

(** [taxRatePct]: [0] unless the line has a tax id; then the rate of the
    row that the awaited lookup returns, [0] when it returns none. *)
Definition readTaxRatePct (l : CartLine) : Prisma Q :=
  match truthyId (taxRateId l) with
  | Some t =>
      tx ← findUniqueTax t;
      mret (match tx with
            | Some tx => rate tx
            | None => 0%Q
            end)
  | None => mret 0%Q
  end.

(** The writes of [line.taxAmount] and [line.lineTotal] at a rate. *)
Definition retaxLine (taxRatePct : Q) (l : CartLine) : CartLine :=
  let base := (unitPrice l * quantity l)%Q in
  let taxAmount' := ((base - orZero (discount l)) * (taxRatePct / 100))%Q in
  {| itemId := itemId l;
     quantity := quantity l;
     unitPrice := unitPrice l;
     discount := discount l;
     taxRateId := taxRateId l;
     taxAmount := taxAmount';
     lineTotal := (base - orZero (discount l) + taxAmount')%Q;
     name := name l |}.

(** [POST /api/checkout/updateLine]; [faults] is the script of Prisma
    failures of this request.  The handler body is one [try] block: when
    the tax lookup throws, the [catch] answers 400 with the message, and
    the line keeps the fields already written, with the [taxAmount] and
    [lineTotal] of before.  The lookup only reads the database. *)
Definition updateLine (faults : list (option string)) (r : UpdateLineReq)
    (s : Server) : Server * Response Cart :=
  match carts s !! upd_cartId r with
  | None => (s, Err 404 "Cart not found")
  | Some cart =>
      let idx := Number (upd_lineIndex r) in
      match arrayGet (lines cart) idx with
      | None => (s, Err 404 "Line not found")
      | Some (i, line) =>
          if removesLine (upd_quantity r) then
            let cart' := mkCart (cartId cart) (splice1 (lines cart) idx) in
            (mkServer (<[upd_cartId r := cart']> (carts s)) (db s), Ok cart')
          else
            let line1 := patchLine r line in
            match readTaxRatePct line1 (mkWorld (db s) faults) with
            | (_, Returned taxRatePct) =>
                let cart' :=
                  mkCart (cartId cart)
                         (<[i := retaxLine taxRatePct line1]> (lines cart)) in
                (mkServer (<[upd_cartId r := cart']> (carts s)) (db s), Ok cart')
            | (_, Thrown e) =>
                let cart' := mkCart (cartId cart) (<[i := line1]> (lines cart)) in
                (mkServer (<[upd_cartId r := cart']> (carts s)) (db s), Err 400 e)
            end
      end
  end.

Record RemoveLineReq : Type := mkRemoveLineReq {
  rem_cartId : string;
  rem_lineIndex : jsval
}.

(** [POST /api/checkout/removeLine]. *)
Definition removeLine (r : RemoveLineReq) (s : Server) : Server * Response Cart :=
  match carts s !! rem_cartId r with
  | None => (s, Err 404 "Cart not found")
  | Some cart =>
      let idx := Number (rem_lineIndex r) in
      if jsLt0 idx || jsGeLen idx (length (lines cart)) then
        (s, Err 404 "Line not found")
      else
        let cart' := mkCart (cartId cart) (splice1 (lines cart) idx) in
        (mkServer (<[rem_cartId r := cart']> (carts s)) (db s), Ok cart')
  end.

(** ** Settlement *)

Record PaymentReq : Type := mkPaymentReq {
  method : option string;
  p_amount : jsval;
  p_reference : option string
}.

Record CompleteReq : Type := mkCompleteReq {
  cmp_cartId : string;
  cmp_payments : list PaymentReq;
  cmp_customerId : option Z
}.

(** [toUpperCase] on the ASCII letters; other characters are kept. *)
Definition upperAscii (c : ascii) : ascii :=
  let n := N_of_ascii c in
  if (97 <=? n)%N && (n <=? 122)%N then ascii_of_N (n - 32) else c.

Fixpoint toUpperCase (s : string) : string :=
  match s with
  | EmptyString => EmptyString
  | String c s' => String (upperAscii c) (toUpperCase s')
  end.

(** [String(p.method || '').toUpperCase() || 'CASH']. *)
Definition methodName (p : PaymentReq) : string :=
  let s := toUpperCase (default "" (method p)) in
  if String.eqb s "" then "CASH" else s.

(** The [where] clause [OR: [{ code }, { name }]]. *)
Definition pmMatches (m : string) (pm : PaymentMethod) : bool :=
  match pm_code pm with
  | Some c => String.eqb c m
  | None => false
  end || String.eqb (pm_name pm) m.

Definition findFirstPaymentMethod (m : string) : Prisma (option PaymentMethod) :=
  prismaCall (fun d => (d, find (pmMatches m) (paymentMethods d))).

(** The id of the next auto-incremented payment-method row. *)
Definition nextPmId (d : Db) : Z :=
  (1 + fold_right Z.max 0 (map pm_id (paymentMethods d)))%Z.

Definition createPaymentMethod (code : option string) (nm : string)
  : Prisma PaymentMethod :=
  prismaCall (fun d =>
    let pm := mkPaymentMethod (nextPmId d) code nm in
    (mkDb (items d) (barcodes d) (taxes d) (paymentMethods d ++ [pm])
          (receipts d) (stockLedger d), pm)).

(** The body of [for (const p of payments)]. *)
Definition paymentOf (p : PaymentReq) (pm : PaymentMethod) : Payment :=
  {| amount := toNum (p_amount p);
     reference := truthyStr (p_reference p);
     status := "SUCCESS";
     paymentMethodId := pm_id pm |}.

(** The payment method of a tender: the first row whose code or name is
    the method name, else a row created on the spot, first with code and
    name, and with the name alone should that throw. *)
Definition ensurePaymentMethod (m : string) : Prisma PaymentMethod :=
  found ← findFirstPaymentMethod m;
  match found with
  | Some pm => mret pm
  | None =>
      tryCatch (createPaymentMethod (Some m) m)
               (fun _ => createPaymentMethod None m)
  end.

Fixpoint createPayments (ps : list PaymentReq) (acc : list Payment)
  : Prisma (list Payment) :=
  match ps with
  | [] => mret acc
  | p :: ps' =>
      pm ← ensurePaymentMethod (methodName p);
      createPayments ps' (acc ++ [paymentOf p pm])
  end.

Definition receiptLineOf (l : CartLine) : ReceiptLine :=
  {| rl_itemId := itemId l;
     rl_quantity := quantity l;
     rl_unitPrice := unitPrice l;
     rl_discount := discount l;
     rl_taxAmount := taxAmount l;
     rl_lineTotal := lineTotal l;
     rl_taxRateId := taxRateId l |}.

(** [prisma.receipt.create] with its nested [lines] and [payments]: one
    call, so the receipt and its children are written together or not at
    all. *)
Definition createReceipt (rc : Receipt) : Prisma Receipt :=
  prismaCall (fun d =>
    (mkDb (items d) (barcodes d) (taxes d) (paymentMethods d)
          (receipts d ++ [rc]) (stockLedger d), rc)).

Definition stockEntryOf (ref : string) (l : CartLine) : StockLedger :=
  {| sl_itemId := itemId l;
     sl_quantity := (- Qabs (quantity l))%Q;
     unitCost := 0;
     sl_type := "SALE";
     sl_reference := ref |}.

Definition createStockLedger (e : StockLedger) : Prisma unit :=
  prismaCall (fun d =>
    (mkDb (items d) (barcodes d) (taxes d) (paymentMethods d)
          (receipts d) (stockLedger d ++ [e]), tt)).

(** [for (const l of cart.lines) await prisma.stockLedger.create(...)]. *)
Fixpoint stockLoop (ref : string) (ls : list CartLine) : Prisma unit :=
  match ls with
  | [] => mret tt
  | l :: ls' => _ ← createStockLedger (stockEntryOf ref l); stockLoop ref ls'
  end.

(** [arr.reduce((s, l) => s + f(l), 0)]. *)
Definition sumOver (f : CartLine -> Q) (ls : list CartLine) : Q :=
  fold_left (fun s l => (s + f l)%Q) ls 0%Q.

Definition receiptOf (rn : string) (r : CompleteReq) (cart : Cart)
    (createdPayments : list Payment) : Receipt :=
  let totalTax := sumOver taxAmount (lines cart) in
  {| receiptNumber := rn;
     customerId := cmp_customerId r;
     totalBeforeDiscount := sumOver (fun l => (unitPrice l * quantity l)%Q) (lines cart);
     totalDiscount := sumOver discount (lines cart);
     totalTax := totalTax;
     totalAmount := sumOver lineTotal (lines cart);
     cgst := (totalTax / 2)%Q;
     sgst := (totalTax / 2)%Q;
     igst := 0;
     cess := 0;
     receiptStatus := "COMPLETED";
     receiptLines := map receiptLineOf (lines cart);
     payments := createdPayments |}.

(** The body of the [try] block. *)
Definition settle (rn : string) (r : CompleteReq) (cart : Cart) : Prisma Receipt :=
  created ← createPayments (cmp_payments r) [];
  receipt ← createReceipt (receiptOf rn r cart created);
  _ ← stockLoop (receiptNumber receipt) (lines cart);
  mret receipt.

(** [POST /api/checkout/complete]; [rn] is the receipt number drawn from
    the clock and the random generator, [faults] the script of Prisma
    failures of this request. *)
Definition complete (faults : list (option string)) (rn : string)
    (r : CompleteReq) (s : Server) : Server * Response Receipt :=
  match carts s !! cmp_cartId r with
  | None => (s, Err 404 "Cart not found")
  | Some cart =>
      if (length (lines cart) =? 0)%nat then (s, Err 400 "Cart empty")
      else
        match settle rn r cart (mkWorld (db s) faults) with
        | (w, Returned receipt) =>
            (mkServer (delete (cmp_cartId r) (carts s)) (w_db w), Ok receipt)
        | (w, Thrown e) =>
            (mkServer (carts s) (w_db w), Err 400 e)
        end
  end.

(** ** Derived notions used by the statements *)

(** The totals the cashier page derives (frontend/src/pages/Cashier.tsx):
    [grandTotal] sums [lineTotal], [paidTotal] sums the tenders. *)
Definition grandTotal (c : Cart) : Q := sumOver lineTotal (lines c).

Definition paidTotal (ts : list PaymentReq) : Q :=
  fold_left (fun s t => (s + toNum (p_amount t))%Q) ts 0%Q.

(** Rounding to two decimals, half up: [Math.round(n * 100) / 100]. *)
Definition round2 (x : Q) : Q :=
  (inject_Z (Qfloor (x * 100 + (1 # 2))) / 100)%Q.

(** The pre-tax base of a line. *)
Definition lineBase (l : CartLine) : Q := (unitPrice l * quantity l)%Q.

(** The line invariant of the data model. *)
Definition lineInvariant (l : CartLine) : Prop :=
  (lineTotal l == lineBase l - discount l + taxAmount l)%Q.

Definition cartsInvariant (s : Server) : Prop :=
  map_Forall (fun _ c => Forall lineInvariant (lines c)) (carts s).

(** The tax of a line priced on its discounted base at the rate of its tax
    row, unrounded. *)
Definition taxOnDiscountedBase (d : Db) (l : CartLine) : Q :=
  ((lineBase l - discount l) * (taxRatePctOf d (taxRateId l) / 100))%Q.

(** A payment-method row as the payment loop creates it at first try:
    the method name is its code and its name. *)
Definition namedByCode (pm : PaymentMethod) : Prop :=
  pm_code pm = Some (pm_name pm).

(** A tender as the receipt records it. *)
Definition recorded (d : Db) (p : PaymentReq) (pay : Payment) : Prop :=
  amount pay = toNum (p_amount p) ∧
  status pay = "SUCCESS" ∧
  ∃ pm, pm ∈ paymentMethods d ∧ pm_id pm = paymentMethodId pay ∧
        pmMatches (methodName p) pm = true.

(** ** The seeded store and small carts *)

(** The rows written by the seed script: three items, five tax rates, six
    payment methods. *)
Definition seedDb : Db :=
  {| items := [mkItem 1 "Basmati Rice 1kg" 120 (Some 2%Z);
               mkItem 2 "Masala Chips 200g" 30 (Some 3%Z);
               mkItem 3 "Toothpaste 100g" 45 (Some 4%Z)];
     barcodes := [("8900000000011", 1%Z); ("8900000000028", 2%Z);
                  ("8900000000035", 3%Z)];
     taxes := [mkTax 1 0; mkTax 2 5; mkTax 3 12; mkTax 4 18; mkTax 5 28];
     paymentMethods :=
       [mkPaymentMethod 1 (Some "CASH") "Cash";
        mkPaymentMethod 2 (Some "CARD") "Card";
        mkPaymentMethod 3 (Some "UPI") "UPI";
        mkPaymentMethod 4 (Some "WALLET") "Wallet";
        mkPaymentMethod 5 (Some "GIFT_CARD") "Gift Card";
        mkPaymentMethod 6 (Some "STORE_CREDIT") "Store Credit"];
     receipts := [];
     stockLedger := [] |}.

Definition freshServer : Server := mkServer ∅ seedDb.

(** A cart ["c1"] holding one line: item 1, quantity 1, price 120, tax row 2 (5 percent). *)
Definition oneLineServer : Server :=
  fst (add (mkAddReq "c1" (Some 1%Z) None (JNumber 1))
           (fst (start "c1" freshServer))).


(** The same cart after a second scan of item 2. *)
Definition twoLineServer : Server :=
  fst (add (mkAddReq "c1" None (Some "8900000000028") JUndefined) oneLineServer).

(** The one-line cart after a cart discount of 10 percent. *)
Definition discountedServer : Server :=
  fst (applyDiscount (mkDiscountReq "c1" (JNumber 10)) oneLineServer).

Definition rice120 : CartLine :=
  {| itemId := 1; quantity := 1; unitPrice := 120; discount := 0;
     taxRateId := Some 2%Z; taxAmount := 6.00; lineTotal := 126.00;
     name := Some "Basmati Rice 1kg" |}.

(** The carts of the scenarios, evaluated. *)
Definition oneLineCart : Cart :=
  Eval vm_compute in default (mkCart "" []) (carts oneLineServer !! "c1").

Definition twoLineCart : Cart :=
  Eval vm_compute in default (mkCart "" []) (carts twoLineServer !! "c1").

(** A cart ["c2"] whose only line was added with quantity [-2]. *)
Definition negativeLineServer : Server :=
  fst (add (mkAddReq "c2" (Some 1%Z) None (JNumber (-2)))
           (fst (start "c2" freshServer))).




(** A tender of [-5] under a method code the store does not know. *)
Definition oddTender : CompleteReq :=
  mkCompleteReq "c1" [mkPaymentReq (Some "bitcoin") (JNumber (-5)) None] None.

(** Settling cart ["c2"] with no tender. *)
Definition settleNegative : CompleteReq := mkCompleteReq "c2" [] None.

(** A tender of 200 in cash on cart ["c1"]. *)
Definition cashTender : CompleteReq :=
  mkCompleteReq "c1" [mkPaymentReq (Some "CASH") (JNumber 200) None] None.

(** A script in which the fourth Prisma call throws: on a two-line cart
    with one tender that is the second [stockLedger.create]. *)
Definition secondStockWriteFails : list (option string) :=
  [None; None; None; Some "SQLITE_BUSY"].

(** The two-line cart settled with [cashTender] and no fault. *)
Definition settledTwoLine : Server :=
  fst (complete [] "R1" cashTender twoLineServer).

Definition settledReceipt : Receipt :=
  receiptOf "R1" cashTender twoLineCart [mkPayment 200 None "SUCCESS" 1].

(** The same settlement when the second stock write throws. *)
Definition stockFaultRun : Server * Response Receipt :=
  complete secondStockWriteFails "R1" cashTender twoLineServer.

(** The second line of the two-line cart. *)
Definition chipsLine : CartLine :=
  Eval vm_compute in default rice120 (lines twoLineCart !! 1).

(** A patch that sets the quantity of line 0 to 3, and the cart it gives. *)
Definition setQuantity3 : UpdateLineReq :=
  mkUpdateLineReq "c1" (JNumber 0) (JNumber 3) JUndefined JUndefined.

Definition repricedCart : Cart :=
  Eval vm_compute in
    match snd (updateLine [] setQuantity3 oneLineServer) with
    | Ok c => c
    | Err _ _ => mkCart "" []
    end.

(** The same patch when the tax lookup throws, and the server it leaves. *)
Definition taxLookupFails : list (option string) := [Some "SQLITE_BUSY"].

Definition staleServer : Server :=
  fst (updateLine taxLookupFails setQuantity3 oneLineServer).

(** The same patch on the two-line cart. *)
Definition repricedTwoLineCart : Cart :=
  Eval vm_compute in
    match snd (updateLine [] setQuantity3 twoLineServer) with
    | Ok c => c
    | Err _ _ => mkCart "" []
    end.

(** A patch that sets the quantity of line 0 to [-1]. *)
Definition setQuantityMinus1 : UpdateLineReq :=
  mkUpdateLineReq "c1" (JNumber 0) (JNumber (-1)) JUndefined JUndefined.

(** A removal request that carries no [lineIndex]. *)
Definition removeNoIndex : RemoveLineReq := mkRemoveLineReq "c1" JUndefined.

(** The method codes of the seed. *)
Definition recognizedMethods : list string :=
  ["CASH"; "CARD"; "UPI"; "WALLET"; "GIFT_CARD"; "STORE_CREDIT"].

(** ** What a run of Prisma calls may do *)

(** The catalogue is only read; payment-method rows are only appended. *)
Record grows (d d' : Db) : Prop := mkGrows {
  grows_items : items d' = items d;
  grows_barcodes : barcodes d' = barcodes d;
  grows_taxes : taxes d' = taxes d;
  grows_pm : ∃ extra, paymentMethods d' = paymentMethods d ++ extra
}.

(** A run consumes a prefix of the fault script, and what it throws comes
    from that script. *)
Record runs {A} (w w' : World) (o : Outcome A) : Prop := mkRuns {
  runs_db : grows (w_db w) (w_db w');
  runs_faults : ∃ used, w_faults w = used ++ w_faults w';
  runs_thrown : ∀ e, o = Thrown e → Some e ∈ w_faults w
}.

(** The three ways [complete] can leave the server when the cart is open
    and not empty. *)
Inductive SettleOutcome (faults : list (option string)) (rn : string)
    (r : CompleteReq) (cart : Cart) (s s' : Server)
  : Response Receipt → Prop :=
| ReceiptNotWritten (e : string) :
    Some e ∈ faults →
    carts s' = carts s →
    receipts (db s') = receipts (db s) →
    stockLedger (db s') = stockLedger (db s) →
    SettleOutcome faults rn r cart s s' (Err 400 e)
| ReceiptWithoutAllStock (e : string) (created : list Payment) (k : nat) :
    Some e ∈ faults →
    carts s' = carts s →
    Forall2 (recorded (db s')) (cmp_payments r) created →
    receipts (db s') = receipts (db s) ++ [receiptOf rn r cart created] →
    k < length (lines cart) →
    stockLedger (db s') =
      stockLedger (db s) ++ map (stockEntryOf rn) (take k (lines cart)) →
    SettleOutcome faults rn r cart s s' (Err 400 e)
| Settled (created : list Payment) :
    carts s' = delete (cmp_cartId r) (carts s) →
    Forall2 (recorded (db s')) (cmp_payments r) created →
    receipts (db s') = receipts (db s) ++ [receiptOf rn r cart created] →
    stockLedger (db s') =
      stockLedger (db s) ++ map (stockEntryOf rn) (lines cart) →
    SettleOutcome faults rn r cart s s' (Ok (receiptOf rn r cart created)).

(** * Further handlers and helpers *)

(** ** Receipt lookup *)

(** [GET /api/receipts/:number]: the first receipt with that number.  The
    joined item and payment-method rows of the answer are left out. *)
Definition getReceipt (number : string) (d : Db) : Response Receipt :=
  match find (fun r => String.eqb (receiptNumber r) number) (receipts d) with
  | Some r => Ok r
  | None => Err 404 "Receipt not found"
  end.

(** ** Text helpers of the plain-text receipt *)

(** [s.repeat(n)]. *)
Fixpoint strRepeat (s : string) (n : nat) : string :=
  match n with
  | O => ""
  | S n' => s +:+ strRepeat s n'
  end.

Module PlainReceipt.

(** [const W = 42]. *)
Definition W : nat := 42.

(** [line = (ch = '-') => ch.repeat(W)]. *)
Definition line (ch : string) : string := strRepeat ch W.

(** [pad]: cut to the width, or fill with spaces up to it. *)
Definition pad (s : string) : string :=
  if (W <? String.length s)%nat then String.substring 0 W s
  else s +:+ strRepeat " " (W - String.length s).

(** [lr]: left and right text with at least one space between. *)
Definition lr (L R : string) : string :=
  let spaces :=
    Z.max 1 (Z.of_nat W - Z.of_nat (String.length L) - Z.of_nat (String.length R)) in
  L +:+ strRepeat " " (Z.to_nat spaces) +:+ R.

End PlainReceipt.

(** ** Escaping for the HTML receipt *)

(** [s.replace(/c/g, by)] for a one-character pattern. *)
Fixpoint replaceAll (c : ascii) (by_ : string) (s : string) : string :=
  match s with
  | EmptyString => EmptyString
  | String a s' =>
      if Ascii.eqb a c then by_ +:+ replaceAll c by_ s'
      else String a (replaceAll c by_ s')
  end.

(** [esc]: [String(s ?? '')] with [&], [<] and [>] replaced in that order. *)
Definition esc (s : option string) : string :=
  replaceAll ">" "&gt;" (replaceAll "<" "&lt;" (replaceAll "&" "&amp;" (default "" s))).

(** ** The daily Z report *)





(** ** Settings *)

(** The [Setting] table: rows of key and value. *)
Definition SettingRow : Type := (string * string)%type.

(** [prisma.setting.upsert({ where: { key }, update: { value }, create })]. *)
Fixpoint upsertSetting (key value : string) (rows : list SettingRow) : list SettingRow :=
  match rows with
  | [] => [(key, value)]
  | (k, v) :: rows' =>
      if String.eqb k key then (k, value) :: rows'
      else (k, v) :: upsertSetting key value rows'
  end.


(** [PUT /api/admin/settings]: one upsert per entry of the body, in order;
    the first one that throws ends the loop with a 400. *)
Fixpoint putSettings (faults : list (option string)) (entries : list (string * string))
    (rows : list SettingRow) : list SettingRow * Response unit :=
  match entries with
  | [] => (rows, Ok tt)
  | (key, value) :: entries' =>
      match faults with
      | Some e :: _ => (rows, Err 400 e)
      | None :: fs => putSettings fs entries' (upsertSetting key value rows)
      | [] => putSettings [] entries' (upsertSetting key value rows)
      end
  end.

(** ** The cashier page (frontend/src/pages/Cashier.tsx) *)

Module Cashier.

(** [clamp2 = n => Math.max(0, Math.round(n * 100) / 100)]. *)
Definition clamp2 (n : Q) : Q := Qmax 0 (round2 n).

(** The totals of the page.  A cart of this backend has no [lineDiscount]
    and no [lineTax], so [toNum(l.discount) || toNum(l.lineDiscount)] is
    [l.discount || 0]. *)
Definition subtotal (c : Cart) : Q :=
  sumOver (fun l => (unitPrice l * quantity l)%Q) (lines c).

Definition discountTotal (c : Cart) : Q :=
  sumOver (fun l => orZero (discount l)) (lines c).

Definition taxTotal (c : Cart) : Q :=
  sumOver (fun l => orZero (taxAmount l)) (lines c).

(** [due] and [change]. *)
Definition due (c : Cart) (tenders : list PaymentReq) : Q :=
  clamp2 (Qmax 0 (grandTotal c - paidTotal tenders)).

Definition change (c : Cart) (tenders : list PaymentReq) : Q :=
  clamp2 (Qmax 0 (paidTotal tenders - grandTotal c)).

(** [!amount || amount <= 0]. *)
Definition rejected (amount : jsnum) : bool :=
  match amount with
  | NaN => true
  | Fin q => Qeq_bool q 0 || Qle_bool q 0
  end.

(** The number behind an amount that was not rejected. *)
Definition amountOf (amount : jsnum) : Q :=
  match amount with
  | NaN => 0%Q
  | Fin q => q
  end.

(** [addCash(amount)]. *)
Definition addCash (amount : jsnum) (tenders : list PaymentReq) : list PaymentReq :=
  if rejected amount then tenders
  else tenders ++ [mkPaymentReq (Some "CASH") (JNumber (clamp2 (amountOf amount))) None].

(** [addUpi(amount)]; [ref] is the reference drawn from the clock. *)
Definition addUpi (ref : string) (amount : jsnum) (tenders : list PaymentReq)
  : list PaymentReq :=
  if rejected amount then tenders
  else tenders ++ [mkPaymentReq (Some "UPI") (JNumber (clamp2 (amountOf amount))) (Some ref)].

(** [removeTender(i)]: [t.filter((_, idx) => idx !== i)]. *)
Definition removeTender (i : nat) (tenders : list PaymentReq) : list PaymentReq :=
  map snd (filter (fun p => fst p ≠ i) (imap pair tenders)).

End Cashier.

(** ** Notions used by the further statements *)

(** The item that [add] finds: by barcode when one is given, else by id. *)
Definition lookupItem (r : AddReq) (d : Db) : option Item :=
  match truthyStr (add_barcode r) with
  | Some bc => findBarcode d bc
  | None =>
      match truthyId (add_itemId r) with
      | Some i => findItem d i
      | None => None
      end
  end.

(** The line that [add] builds for an item. *)
Definition newLine (d : Db) (item : Item) (qty : jsval) : CartLine :=
  let q := numOr 1 qty in
  let tax :=
    match truthyId (taxId item) with
    | Some tid =>
        match findTax d tid with
        | Some tax => (Some (tax_id tax), (mrp item * q * rate tax / 100)%Q)
        | None => (None, 0%Q)
        end
    | None => (None, 0%Q)
    end in
  {| itemId := item_id item;
     quantity := q;
     unitPrice := mrp item;
     discount := 0;
     taxRateId := fst tax;
     taxAmount := snd tax;
     lineTotal := (mrp item * q + snd tax)%Q;
     name := Some (item_name item) |}.

(** A tender whose method name matches a payment-method row. *)
Definition knownMethod (d : Db) (p : PaymentReq) : Prop :=
  ∃ pm, pm ∈ paymentMethods d ∧ pmMatches (methodName p) pm = true.



(** What [esc] makes of one character. *)
Definition escChar (a : ascii) : string :=
  if Ascii.eqb a "&" then "&amp;"
  else if Ascii.eqb a "<" then "&lt;"
  else if Ascii.eqb a ">" then "&gt;"
  else String a "".

(** [escChar] on every character. *)
Fixpoint escMap (s : string) : string :=
  match s with
  | EmptyString => EmptyString
  | String a s' => escChar a +:+ escMap s'
  end.

(** Whether a character occurs in a string. *)
Fixpoint occurs (c : ascii) (s : string) : bool :=
  match s with
  | EmptyString => false
  | String a s' => Ascii.eqb a c || occurs c s'
  end.

(** Reading an escaped text back. *)
Fixpoint unesc (s : string) : string :=
  match s with
  | EmptyString => EmptyString
  | String a r =>
      if Ascii.eqb a "&" then
        match r with
        | String "a" (String "m" (String "p" (String ";" r'))) => String "&" (unesc r')
        | String "l" (String "t" (String ";" r')) => String "<" (unesc r')
        | String "g" (String "t" (String ";" r')) => String ">" (unesc r')
        | _ => String a (unesc r)
        end
      else String a (unesc r)
  end.

(** A tender of the drawer: a non-negative number of hundredths. *)
Definition wholeCents (t : PaymentReq) : Prop :=
  ∃ cents : Z, (0 ≤ cents)%Z ∧ (toNum (p_amount t) == inject_Z cents / 100)%Q.

(** ** Further scenarios *)

(** The row of the rice in the seeded store. *)
Definition riceItem : Item := mkItem 1 "Basmati Rice 1kg" 120 (Some 2%Z).

(** A second scan of the rice on cart ["c1"]. *)
Definition scanRice : AddReq := mkAddReq "c1" (Some 1%Z) None (JNumber 1).

(** A scan with a barcode the store does not know and the item id of the
    rice. *)
Definition scanUnknownBarcode : AddReq :=
  mkAddReq "c1" (Some 1%Z) (Some "0000000000000") JUndefined.

(** Requests that carry the index one half. *)
Definition removeHalf : RemoveLineReq := mkRemoveLineReq "c1" (JNumber 0.5%Q).

Definition updateHalf : UpdateLineReq :=
  mkUpdateLineReq "c1" (JNumber 0.5%Q) (JNumber 3) JUndefined JUndefined.

(** A second cart ["c2"] with one pack of chips beside cart ["c1"], and a
    tender on it under the method name of [oddTender] in another case. *)
Definition twoCartsServer : Server :=
  fst (add (mkAddReq "c2" (Some 2%Z) None (JNumber 1))
           (fst (start "c2" oneLineServer))).

Definition oddTenderAgain : CompleteReq :=
  mkCompleteReq "c2" [mkPaymentReq (Some "Bitcoin") (JNumber 40) None] None.

(** Cart ["c1"] of the two settled with [oddTender] and no fault. *)
Definition oddSettled : Server := fst (complete [] "R1" oddTender twoCartsServer).

Definition oddReceipt : Receipt :=
  receiptOf "R1" oddTender oneLineCart [mkPayment (-5) None "SUCCESS" 7].

(** The settings written by the seed script, and a body that changes one
    of them and adds one. *)
Definition seedSettings : list SettingRow :=
  [("STORE_NAME", "Your Store");
   ("STORE_ADDRESS", "123 Market Road, Bengaluru, KA 560001");
   ("STORE_GSTIN", "29ABCDE1234F1Z5");
   ("PLACE_OF_SUPPLY", "KA");
   ("UPI_VPA", "beeku7@ibl")].

Definition settingsBody : list (string * string) :=
  [("STORE_NAME", "Corner Shop"); ("STORE_PHONE", "080-000000")].

(** A drawer with one cash tender of 50. *)
Definition fiftyCash : list PaymentReq :=
  [mkPaymentReq (Some "CASH") (JNumber 50) None].

(** Deciders, so that statements about concrete carts can be evaluated. *)
#[global] Instance Qeq_decision (x y : Q) : Decision (x == y)%Q := Qeq_dec x y.

#[global] Instance lineInvariant_dec (l : CartLine) : Decision (lineInvariant l).
Proof. unfold lineInvariant. apply _. Defined.

#[global] Instance cartsInvariant_dec (s : Server) : Decision (cartsInvariant s).
Proof. unfold cartsInvariant. apply _. Defined.

(** * Properties *)

(** ** Arithmetic of a line *)

Lemma orZero_eq (x : Q) : (orZero x == x)%Q.
Proof.
  unfold orZero. destruct (Qeq_bool x 0) eqn:E; [|reflexivity].
  symmetry. by apply Qeq_bool_iff.
Qed.

Lemma discountLine_invariant (pct : Q) (l : CartLine) :
  lineInvariant (discountLine pct l).
Proof. unfold lineInvariant, lineBase, discountLine; simpl. reflexivity. Qed.

Lemma repriceLine_invariant (d : Db) (r : UpdateLineReq) (l : CartLine) :
  lineInvariant (repriceLine d r l).
Proof.
  unfold lineInvariant, lineBase, repriceLine; simpl.
  rewrite !orZero_eq. reflexivity.
Qed.

Lemma Forall_splice1 {A} (P : A → Prop) (l : list A) (x : jsnum) :
  Forall P l → Forall P (splice1 l x).
Proof.
  intros H. unfold splice1. apply Forall_app. split.
  - by apply Forall_take.
  - by apply Forall_drop.
Qed.

Lemma cartsInvariant_insert (s : Server) (k : string) (c : Cart) :
  cartsInvariant s → Forall lineInvariant (lines c) →
  cartsInvariant (mkServer (<[k := c]> (carts s)) (db s)).
Proof.
  unfold cartsInvariant; simpl. intros Hs Hc. by apply map_Forall_insert_2.
Qed.

Lemma add_preserves_invariant (r : AddReq) (s : Server) :
  cartsInvariant s → cartsInvariant (fst (add r s)).
Proof.
  intros Hs. unfold add.
  destruct (carts s !! add_cartId r) as [cart|] eqn:Hc; [|done].
  match goal with
  | |- context [match ?i with
                | Some _ => _
                | None => (s, Err 404 "Item not found")
                end] => destruct i as [item|]
  end; [|done].
  destruct (match truthyId (taxId item) with Some _ => _ | None => _ end)
    as [tid ta] eqn:Ht.
  simpl. apply cartsInvariant_insert; [done|]. simpl.
  apply Forall_app. split.
  - exact (Hs _ _ Hc).
  - constructor; [|constructor].
    unfold lineInvariant, lineBase; simpl. ring.
Qed.

(** The tax lookup returns the rate of the line's tax row, or throws what
    the head of the script says; it throws only for a line with a tax id. *)
Lemma readTaxRatePct_cases (l : CartLine) (d : Db) (fs : list (option string)) :
  (∃ w', readTaxRatePct l (mkWorld d fs)
         = (w', Returned (taxRatePctOf d (taxRateId l)))) ∨
  (∃ t e rest, truthyId (taxRateId l) = Some t ∧ fs = Some e :: rest ∧
               readTaxRatePct l (mkWorld d fs) = (mkWorld d rest, Thrown e)).
Proof.
  unfold readTaxRatePct, taxRatePctOf.
  destruct (truthyId (taxRateId l)) as [t|] eqn:Ht; [|left; by eexists].
  destruct fs as [|[e|] rest].
  - left. eexists. reflexivity.
  - right. exists t, e, rest. by split_and!.
  - left. eexists. reflexivity.
Qed.

(** What [updateLine] does once the line is found and is not removed. *)
Lemma updateLine_cases (fs : list (option string)) (r : UpdateLineReq)
    (s : Server) (cart : Cart) (i : nat) (l : CartLine) :
  carts s !! upd_cartId r = Some cart →
  arrayGet (lines cart) (Number (upd_lineIndex r)) = Some (i, l) →
  removesLine (upd_quantity r) = false →
  updateLine fs r s =
    (mkServer (<[upd_cartId r :=
                   mkCart (cartId cart) (<[i := repriceLine (db s) r l]> (lines cart))]>
                 (carts s)) (db s),
     Ok (mkCart (cartId cart) (<[i := repriceLine (db s) r l]> (lines cart)))) ∨
  (∃ t e rest, truthyId (taxRateId l) = Some t ∧ fs = Some e :: rest ∧
     updateLine fs r s =
       (mkServer (<[upd_cartId r :=
                      mkCart (cartId cart) (<[i := patchLine r l]> (lines cart))]>
                    (carts s)) (db s),
        Err 400 e)).
Proof.
  intros Hc Hget Hrem. unfold updateLine. rewrite Hc, Hget, Hrem.
  destruct (readTaxRatePct_cases (patchLine r l) (db s) fs)
    as [[w' E]|(t & e & rest & Ht & Hfs & E)]; rewrite E.
  - by left.
  - right. exists t, e, rest. by split_and!.
Qed.

Lemma updateLine_preserves_invariant (fs : list (option string))
    (r : UpdateLineReq) (s : Server) :
  cartsInvariant s →
  (∀ e, snd (updateLine fs r s) ≠ Err 400 e) →
  cartsInvariant (fst (updateLine fs r s)).
Proof.
  intros Hs Hno.
  destruct (carts s !! upd_cartId r) as [cart|] eqn:Hc;
    [|unfold updateLine; by rewrite Hc].
  pose proof (Hs _ _ Hc) as Hl. simpl in Hl.
  destruct (arrayGet (lines cart) (Number (upd_lineIndex r))) as [[i line]|] eqn:Hget;
    [|unfold updateLine; by rewrite Hc, Hget].
  destruct (removesLine (upd_quantity r)) eqn:Hrem.
  - unfold updateLine. rewrite Hc, Hget, Hrem. simpl.
    apply cartsInvariant_insert; [done|]. simpl. by apply Forall_splice1.
  - destruct (updateLine_cases fs r s cart i line Hc Hget Hrem)
      as [E|(t & e & rest & _ & _ & E)].
    + rewrite E. simpl. apply cartsInvariant_insert; [done|]. simpl.
      apply Forall_insert; [done|]. apply repriceLine_invariant.
    + destruct (Hno e). by rewrite E.
Qed.

Lemma applyDiscount_preserves_invariant (r : DiscountReq) (s : Server) :
  cartsInvariant s → cartsInvariant (fst (applyDiscount r s)).
Proof.
  intros Hs. unfold applyDiscount.
  destruct (carts s !! disc_cartId r) as [cart|] eqn:Hc; [|done].
  simpl. apply cartsInvariant_insert; [done|]. simpl.
  apply Forall_map, Forall_forall. intros l _. apply discountLine_invariant.
Qed.

(** C6, the defect. [add] and the cart discount keep the line invariant,
    and so does [updateLine] whenever it answers with the cart (the three
    lemmas above).  But [updateLine] writes quantity, unit price and
    discount into the line before it awaits the tax lookup: when the lookup
    throws, the handler answers 400 and the line keeps the fields just
    written with the tax amount and the total of before.  On the cart of
    the scenario (one line: unit price 120, quantity 1, tax 6, total 126),
    which satisfies the invariant, a patch to quantity 3 whose lookup
    throws leaves quantity 3 with tax 6 and total 126, where the invariant
    asks for 366.  The same patch with a lookup that returns stores tax 18
    and total 378, which satisfy it. *)
Theorem updateLine_failed_lookup_breaks_line_invariant :
  cartsInvariant oneLineServer ∧
  (∃ l',
     updateLine taxLookupFails setQuantity3 oneLineServer =
       (staleServer, Err 400 "SQLITE_BUSY") ∧
     lines <$> carts staleServer !! "c1" = Some [l'] ∧
     (quantity l' == 3)%Q ∧ (unitPrice l' == 120)%Q ∧ (discount l' == 0)%Q ∧
     (taxAmount l' == 6)%Q ∧ (lineTotal l' == 126)%Q ∧
     (lineBase l' - discount l' + taxAmount l' == 366)%Q ∧
     ¬ lineInvariant l') ∧
  ¬ cartsInvariant staleServer ∧
  (∃ l',
     snd (updateLine [] setQuantity3 oneLineServer) = Ok repricedCart ∧
     lines repricedCart = [l'] ∧
     (quantity l' == 3)%Q ∧ (taxAmount l' == 18)%Q ∧ (lineTotal l' == 378)%Q ∧
     lineInvariant l').
Proof.
  split_and!.
  - apply (bool_decide_unpack _). vm_compute. reflexivity.
  - eexists. split; [vm_compute; reflexivity|].
    split; [vm_compute; reflexivity|].
    do 6 (split; [vm_compute; reflexivity|]).
    intros H. vm_compute in H. discriminate H.
  - intros H.
    assert (Hc : carts staleServer !! "c1"
                 = Some (default (mkCart "" []) (carts staleServer !! "c1")))
      by (vm_compute; reflexivity).
    specialize (H _ _ Hc). simpl in H.
    apply Forall_inv in H. vm_compute in H. discriminate H.
  - eexists. split; [vm_compute; reflexivity|].
    split; [reflexivity|].
    do 3 (split; [vm_compute; reflexivity|]).
    vm_compute. reflexivity.
Qed.

(** ** The cart discount *)


(** C3, the defect. On the cart of the scenario (one line, unit price 120,
    quantity 1, tax 5 percent) a cart discount of 10 percent stores
    [discount = 12] but leaves [taxAmount = 6], the tax of the undiscounted
    base, and stores [lineTotal = 114]; the tax of the discounted base
    would be 5.40 and the total 113.40. *)
Theorem applyDiscount_keeps_tax_of_undiscounted_base :
  ∃ l, lines <$> carts discountedServer !! "c1" = Some [l] ∧
       (discount l == 12)%Q ∧
       (taxAmount l == 6)%Q ∧
       (lineTotal l == 114)%Q ∧
       (taxOnDiscountedBase seedDb l == 5.40)%Q ∧
       ¬ (taxAmount l == taxOnDiscountedBase seedDb l)%Q ∧
       ¬ (lineTotal l == 113.40)%Q.
Proof.
  eexists. split; [vm_compute; reflexivity|].
  repeat split; try (vm_compute; reflexivity);
    intros H; vm_compute in H; discriminate H.
Qed.

(** The sibling path: [updateLine] with an empty patch on that same line
    recomputes the tax on the discounted base, 5.40, and the total 113.40. *)
Lemma updateLine_taxes_discounted_base :
  ∃ l, lines <$> carts (fst (updateLine []
           (mkUpdateLineReq "c1" (JNumber 0) JUndefined JUndefined JUndefined)
           discountedServer)) !! "c1" = Some [l] ∧
       (discount l == 12)%Q ∧
       (taxAmount l == 5.40)%Q ∧
       (lineTotal l == 113.40)%Q.
Proof.
  eexists. split; [vm_compute; reflexivity|].
  repeat split; vm_compute; reflexivity.
Qed.




(** ** Arrays addressed by a number *)

Lemma splice1_NaN {A} (l : list A) : splice1 l NaN = drop 1 l.
Proof.
  unfold splice1; simpl. destruct l as [|a l]; [done|].
  replace (Z.min 0 _) with 0%Z by (simpl length; lia).
  replace (Z.to_nat (0 + Z.min 1 _)) with 1%nat by (simpl length; lia).
  done.
Qed.

Lemma Qfloor_of_nat (q : Q) (i : nat) :
  (q == inject_Z (Z.of_nat i))%Q → Qfloor q = Z.of_nat i.
Proof. intros H. rewrite (Qfloor_comp _ _ H). apply Qfloor_Z. Qed.

Lemma toInteger_of_nat (q : Q) (i : nat) :
  (q == inject_Z (Z.of_nat i))%Q → toInteger (Fin q) = Z.of_nat i.
Proof.
  intros H. unfold toInteger.
  assert (Hle : Qle_bool 0 q = true).
  { apply Qle_bool_iff. rewrite H. change 0%Q with (inject_Z 0).
    rewrite <- Zle_Qle. lia. }
  rewrite Hle. by apply Qfloor_of_nat.
Qed.

Lemma splice1_index {A} (l : list A) (q : Q) (i : nat) :
  (q == inject_Z (Z.of_nat i))%Q → i < length l →
  splice1 l (Fin q) = delete i l.
Proof.
  intros H Hi. unfold splice1. rewrite (toInteger_of_nat q i H).
  replace (Z.of_nat i <? 0)%Z with false by lia.
  replace (Z.min (Z.of_nat i) _) with (Z.of_nat i) by lia.
  replace (Z.min 1 _) with 1%Z by lia.
  rewrite Nat2Z.id. replace (Z.to_nat (Z.of_nat i + 1)) with (S i) by lia.
  by rewrite delete_take_drop.
Qed.

Lemma arrayIndex_of_nat (n : nat) (q : Q) (i : nat) :
  (q == inject_Z (Z.of_nat i))%Q → i < n → arrayIndex n (Fin q) = Some i.
Proof.
  intros H Hi. unfold arrayIndex. rewrite (Qfloor_of_nat q i H), Nat2Z.id.
  assert (Qeq_bool q (inject_Z (Z.of_nat i)) = true) as -> by by apply Qeq_bool_iff.
  replace (0 <=? Z.of_nat i)%Z with true by lia.
  replace (i <? n)%nat with true; [done|]. symmetry. by apply Nat.ltb_lt.
Qed.

Lemma arrayGet_of_nat {A} (l : list A) (q : Q) (i : nat) (a : A) :
  (q == inject_Z (Z.of_nat i))%Q → l !! i = Some a →
  arrayGet l (Fin q) = Some (i, a).
Proof.
  intros H Hl. unfold arrayGet.
  rewrite (arrayIndex_of_nat _ q i H) by (by eapply lookup_lt_Some).
  by rewrite Hl.
Qed.

Lemma Number_notNull (v : jsval) (q : Q) : notNull v = Some q → Number v = Fin q.
Proof. destruct v; simpl; congruence. Qed.

Lemma complete_empty_cart (faults : list (option string)) (rn : string)
    (p : CompleteReq) (s : Server) (cart : Cart) :
  carts s !! cmp_cartId p = Some cart → lines cart = [] →
  complete faults rn p s = (s, Err 400 "Cart empty").
Proof. intros Hc Hl. unfold complete. by rewrite Hc, Hl. Qed.

(** ** Removing a line *)

(** C10. On a cart that has a line, [removeLine] with a [lineIndex] that
    [Number] turns into [NaN] does not answer "Line not found": both
    comparisons of the bounds check are false on [NaN], [splice] starts at
    0, and the first line of the cart is removed. *)
Theorem removeLine_NaN_index_removes_first_line
    (r : RemoveLineReq) (s : Server) (cart : Cart)
    (l : CartLine) (rest : list CartLine) :
  carts s !! rem_cartId r = Some cart →
  lines cart = l :: rest →
  Number (rem_lineIndex r) = NaN →
  ∃ cart',
    removeLine r s =
      (mkServer (<[rem_cartId r := cart']> (carts s)) (db s), Ok cart') ∧
    lines cart' = rest.
Proof.
  intros Hc Hl Hn. unfold removeLine. rewrite Hc, Hn. simpl.
  eexists. split; [reflexivity|]. simpl. by rewrite splice1_NaN, Hl.
Qed.

Lemma removeLine_NaN_index_removes_first_line_witness :
  carts twoLineServer !! rem_cartId removeNoIndex = Some twoLineCart ∧
  lines twoLineCart = rice120 :: [chipsLine] ∧
  Number (rem_lineIndex removeNoIndex) = NaN ∧
  ∃ cart',
    removeLine removeNoIndex twoLineServer =
      (mkServer (<[rem_cartId removeNoIndex := cart']> (carts twoLineServer))
                (db twoLineServer), Ok cart') ∧
    lines cart' = [chipsLine].
Proof.
  assert (Hc : carts twoLineServer !! rem_cartId removeNoIndex = Some twoLineCart)
    by (vm_compute; reflexivity).
  assert (Hl : lines twoLineCart = rice120 :: [chipsLine]) by reflexivity.
  assert (Hn : Number (rem_lineIndex removeNoIndex) = NaN) by reflexivity.
  split_and!; [exact Hc|exact Hl|exact Hn|].
  exact (removeLine_NaN_index_removes_first_line removeNoIndex twoLineServer
           twoLineCart rice120 [chipsLine] Hc Hl Hn).
Defined.

(** C8. On an open cart, [updateLine] with an index in range and a quantity
    that is given and not above 0 removes that line and nothing else; on a
    cart of one line no line is left, and every later [complete] on that
    cart answers "Cart empty" and changes nothing. *)
Theorem updateLine_nonpositive_quantity_deletes_line
    (fs : list (option string))
    (r : UpdateLineReq) (s : Server) (cart : Cart) (i : nat) (q qty : Q) :
  carts s !! upd_cartId r = Some cart →
  Number (upd_lineIndex r) = Fin q →
  (q == inject_Z (Z.of_nat i))%Q →
  i < length (lines cart) →
  notNull (upd_quantity r) = Some qty →
  (qty <= 0)%Q →
  ∃ cart',
    updateLine fs r s =
      (mkServer (<[upd_cartId r := cart']> (carts s)) (db s), Ok cart') ∧
    lines cart' = delete i (lines cart) ∧
    (length (lines cart) = 1 →
     lines cart' = [] ∧
     ∀ faults rn p, cmp_cartId p = upd_cartId r →
       complete faults rn p (fst (updateLine fs r s)) =
         (fst (updateLine fs r s), Err 400 "Cart empty")).
Proof.
  intros Hc Hn Hq Hi Hqty Hle.
  destruct (lookup_lt_is_Some_2 _ _ Hi) as [line Hline].
  assert (Hupd : updateLine fs r s =
    (mkServer (<[upd_cartId r := mkCart (cartId cart) (delete i (lines cart))]>
                (carts s)) (db s),
     Ok (mkCart (cartId cart) (delete i (lines cart))))).
  { unfold updateLine. rewrite Hc, Hn. simpl.
    rewrite (arrayGet_of_nat _ q i line Hq Hline).
    unfold removesLine. rewrite Hqty, (Number_notNull _ _ Hqty). simpl.
    assert (Qle_bool qty 0 = true) as -> by by apply Qle_bool_iff.
    by rewrite (splice1_index _ q i Hq Hi). }
  eexists. split; [exact Hupd|]. split; [done|].
  intros Hlen.
  assert (Hnil : delete i (lines cart) = []).
  { destruct (lines cart) as [|a [|b l']]; simpl in *; try lia.
    destruct i; [done|lia]. }
  split; [done|].
  intros faults rn p Hp. rewrite Hupd. simpl.
  eapply complete_empty_cart; simpl.
  - rewrite Hp. apply lookup_insert_eq.
  - done.
Qed.

Lemma updateLine_nonpositive_quantity_deletes_line_witness :
  carts oneLineServer !! upd_cartId setQuantityMinus1 = Some oneLineCart ∧
  (-1 <= 0)%Q ∧
  ∃ cart',
    updateLine taxLookupFails setQuantityMinus1 oneLineServer =
      (mkServer (<[upd_cartId setQuantityMinus1 := cart']> (carts oneLineServer))
                (db oneLineServer), Ok cart') ∧
    lines cart' = delete 0 (lines oneLineCart) ∧
    (length (lines oneLineCart) = 1 →
     lines cart' = [] ∧
     ∀ faults rn p, cmp_cartId p = upd_cartId setQuantityMinus1 →
       complete faults rn p
         (fst (updateLine taxLookupFails setQuantityMinus1 oneLineServer)) =
         (fst (updateLine taxLookupFails setQuantityMinus1 oneLineServer),
          Err 400 "Cart empty")).
Proof.
  assert (Hc : carts oneLineServer !! upd_cartId setQuantityMinus1
               = Some oneLineCart) by (vm_compute; reflexivity).
  assert (Hle : (-1 <= 0)%Q) by (vm_compute; discriminate).
  split_and!; [exact Hc|exact Hle|].
  apply (updateLine_nonpositive_quantity_deletes_line taxLookupFails
           setQuantityMinus1 oneLineServer oneLineCart 0 0 (-1) Hc).
  - reflexivity.
  - reflexivity.
  - simpl. lia.
  - reflexivity.
  - exact Hle.
Defined.

(** ** Runs of Prisma calls *)

Lemma grows_refl (d : Db) : grows d d.
Proof. split; try done. exists []. by rewrite app_nil_r. Qed.

Lemma grows_trans (d1 d2 d3 : Db) : grows d1 d2 → grows d2 d3 → grows d1 d3.
Proof.
  intros [? ? ? [x1 ?]] [? ? ? [x2 ?]]. split; try congruence.
  exists (x1 ++ x2). rewrite app_assoc. congruence.
Qed.

Lemma recorded_grows (d d' : Db) (p : PaymentReq) (pay : Payment) :
  grows d d' → recorded d p pay → recorded d' p pay.
Proof.
  intros [_ _ _ [extra He]] (Ha & Hs & pm & Hin & Hid & Hm).
  split; [done|]. split; [done|]. exists pm. split; [|done].
  rewrite He. apply elem_of_app. by left.
Qed.

Lemma Forall2_recorded_grows (d d' : Db) ps pays :
  grows d d' → Forall2 (recorded d) ps pays → Forall2 (recorded d') ps pays.
Proof.
  intros Hg HF. eapply Forall2_impl; [exact HF|].
  intros p pay. by apply recorded_grows.
Qed.

Lemma bind_unfold {A B} (m : Prisma A) (k : A → Prisma B) (w : World) :
  (m ≫= k) w =
  match m w with
  | (w', Returned a) => k a w'
  | (w', Thrown e) => (w', Thrown e)
  end.
Proof. reflexivity. Qed.

(** Sequencing two runs. *)
Lemma runs_then {A B} (w w1 w2 : World) (a : A) (o : Outcome B) :
  runs w w1 (Returned a) → runs w1 w2 o → runs w w2 o.
Proof.
  intros [Hg1 [u1 Hf1] _] [Hg2 [u2 Hf2] Ht2]. split.
  - by eapply grows_trans.
  - exists (u1 ++ u2). rewrite Hf1, Hf2. by rewrite app_assoc.
  - intros e He. rewrite Hf1. apply elem_of_app. right. by apply Ht2.
Qed.

Lemma runs_retype {A B} (w w' : World) (e : string) :
  runs w w' (@Thrown A e) → runs w w' (@Thrown B e).
Proof.
  intros [Hg Hf Ht]. split; try done. intros e' [= <-]. by apply Ht.
Qed.

Lemma runs_skip {A} (w : World) (a : A) : runs w w (Returned a).
Proof. split; [apply grows_refl|by exists []|done]. Qed.

(** One Prisma call either throws what the script says, leaving the
    database alone, or runs. *)
Lemma prismaCall_cases {A} (op : Db → Db * A) (w w' : World) (o : Outcome A) :
  prismaCall op w = (w', o) →
  (∃ used, w_faults w = used ++ w_faults w') ∧
  ((∃ e, o = Thrown e ∧ Some e ∈ w_faults w ∧ w_db w' = w_db w) ∨
   (o = Returned (snd (op (w_db w))) ∧ w_db w' = fst (op (w_db w)))).
Proof.
  unfold prismaCall. intros H.
  destruct (w_faults w) as [|[e|] fs] eqn:Hf;
    destruct (op (w_db w)) as [d a] eqn:E; simplify_eq; simpl.
  - split; [by exists []|]. by right.
  - split; [by exists [Some e]|]. left. exists e. split_and!; try done. by left.
  - split; [by exists [None]|]. by right.
Qed.

Lemma prismaCall_no_faults {A} (op : Db → Db * A) (w : World) :
  w_faults w = [] →
  prismaCall op w = (mkWorld (fst (op (w_db w))) [], Returned (snd (op (w_db w)))).
Proof. unfold prismaCall. intros ->. by destruct (op (w_db w)). Qed.

Lemma pmMatches_code (m : string) (i : Z) :
  pmMatches m (mkPaymentMethod i (Some m) m) = true.
Proof. unfold pmMatches; simpl. by rewrite String.eqb_refl. Qed.

Lemma pmMatches_name (m : string) (i : Z) :
  pmMatches m (mkPaymentMethod i None m) = true.
Proof. unfold pmMatches; simpl. by rewrite String.eqb_refl. Qed.

Lemma findFirstPaymentMethod_runs (m : string) (w w' : World) o :
  findFirstPaymentMethod m w = (w', o) →
  runs w w' o ∧ w_db w' = w_db w ∧
  ∀ pm, o = Returned (Some pm) →
        pm ∈ paymentMethods (w_db w) ∧ pmMatches m pm = true.
Proof.
  intros H. apply prismaCall_cases in H as [Hu [(e & -> & He & Hd)|[-> Hd]]];
    simpl in *.
  - split_and!; try done. split; try done.
    + rewrite Hd. apply grows_refl.
    + by intros e' [= <-].
  - split_and!; try done.
    + split; try done. rewrite Hd. apply grows_refl.
    + intros pm [= Hfind]. apply find_some in Hfind as [Hin Hm].
      split; [|done]. by apply list_elem_of_In.
Qed.

Lemma createPaymentMethod_runs code (m : string) (w w' : World) o :
  createPaymentMethod code m w = (w', o) →
  runs w w' o ∧
  receipts (w_db w') = receipts (w_db w) ∧
  stockLedger (w_db w') = stockLedger (w_db w) ∧
  ∀ pm, o = Returned pm →
        pm = mkPaymentMethod (nextPmId (w_db w)) code m ∧
        pm ∈ paymentMethods (w_db w').
Proof.
  intros H. apply prismaCall_cases in H as [Hu [(e & -> & He & Hd)|[-> Hd]]];
    simpl in *; rewrite Hd; simpl.
  - split_and!; try done. split; try done.
    + rewrite Hd. apply grows_refl.
    + by intros e' [= <-].
  - split_and!; try done.
    + split; try done. rewrite Hd. split; try done. by eexists.
    + intros pm [= <-]. split; [done|].
      apply elem_of_app. right. by apply list_elem_of_singleton.
Qed.

Lemma ensurePaymentMethod_runs (m : string) (w w' : World) o :
  ensurePaymentMethod m w = (w', o) →
  runs w w' o ∧
  receipts (w_db w') = receipts (w_db w) ∧
  stockLedger (w_db w') = stockLedger (w_db w) ∧
  ∀ pm, o = Returned pm → pm ∈ paymentMethods (w_db w') ∧ pmMatches m pm = true.
Proof.
  unfold ensurePaymentMethod. rewrite bind_unfold.
  destruct (findFirstPaymentMethod m w) as [w1 o1] eqn:E1.
  apply findFirstPaymentMethod_runs in E1 as (Hr1 & Hd1 & Hf1).
  destruct o1 as [[pm|]|e].
  - intros [= <- <-]. rewrite Hd1. split_and!; try done.
    + destruct Hr1 as [? ? ?]. by split.
    + intros pm' [= <-]. by apply Hf1.
  - unfold tryCatch.
    destruct (createPaymentMethod (Some m) m w1) as [w2 o2] eqn:E2.
    apply createPaymentMethod_runs in E2 as (Hr2 & Hrc2 & Hst2 & Hpm2).
    destruct o2 as [pm|e].
    + intros [= <- <-]. rewrite Hrc2, Hst2, Hd1. split_and!; try done.
      * by eapply runs_then.
      * intros pm' [= <-]. destruct (Hpm2 pm eq_refl) as [-> Hin].
        split; [done|apply pmMatches_code].
    + intros E3. apply createPaymentMethod_runs in E3 as (Hr3 & Hrc3 & Hst3 & Hpm3).
      rewrite Hrc3, Hst3, Hrc2, Hst2, Hd1. split_and!; try done.
      * eapply (runs_then w w1); [exact Hr1|].
        destruct Hr2 as [Hg2 [u2 Hf2] _], Hr3 as [Hg3 [u3 Hf3] Ht3]. split.
        -- by eapply grows_trans.
        -- exists (u2 ++ u3). rewrite Hf2, Hf3. by rewrite app_assoc.
        -- intros e' He'. rewrite Hf2. apply elem_of_app. right. by apply Ht3.
      * intros pm' ->. destruct (Hpm3 pm' eq_refl) as [-> Hin].
        split; [done|apply pmMatches_name].
  - intros [= <- <-]. rewrite Hd1. split_and!; try done.
    by eapply runs_retype.
Qed.

Lemma createPayments_runs (ps : list PaymentReq) : ∀ acc w w' o,
  createPayments ps acc w = (w', o) →
  runs w w' o ∧
  receipts (w_db w') = receipts (w_db w) ∧
  stockLedger (w_db w') = stockLedger (w_db w) ∧
  ∀ created, o = Returned created →
    ∃ new, created = acc ++ new ∧ Forall2 (recorded (w_db w')) ps new.
Proof.
  induction ps as [|p ps IH]; intros acc w w' o; simpl.
  - intros [= <- <-]. split_and!; try done; [apply runs_skip|].
    intros created [= <-]. exists []. by rewrite app_nil_r.
  - rewrite bind_unfold.
    destruct (ensurePaymentMethod (methodName p) w) as [w1 o1] eqn:E1.
    apply ensurePaymentMethod_runs in E1 as (Hr & Hrc & Hst & Hpm).
    destruct o1 as [pm|e].
    + intros E2. apply IH in E2 as (Hr2 & Hrc2 & Hst2 & Hc).
      split_and!; try congruence; [by eapply runs_then|].
      intros created Ho. destruct (Hc created Ho) as (new & -> & HF).
      exists (paymentOf p pm :: new). split; [by rewrite <- app_assoc|].
      constructor; [|done].
      apply (recorded_grows (w_db w1)); [by destruct Hr2|].
      destruct (Hpm pm eq_refl) as [Hin Hm].
      split; [done|]. split; [done|]. by exists pm.
    + intros [= <- <-]. split_and!; try done. by eapply runs_retype.
Qed.

Lemma stockLoop_runs (ref : string) (ls : list CartLine) : ∀ w w' o,
  stockLoop ref ls w = (w', o) →
  runs w w' o ∧
  receipts (w_db w') = receipts (w_db w) ∧
  paymentMethods (w_db w') = paymentMethods (w_db w) ∧
  ∃ k, k ≤ length ls ∧
       stockLedger (w_db w') =
         stockLedger (w_db w) ++ map (stockEntryOf ref) (take k ls) ∧
       (o = Returned tt → k = length ls) ∧
       (∀ e, o = Thrown e → k < length ls).
Proof.
  induction ls as [|l ls IH]; intros w w' o; simpl.
  - intros [= <- <-]. split_and!; try done; [apply runs_skip|].
    exists 0. split_and!; try done. by rewrite app_nil_r.
  - rewrite bind_unfold.
    destruct (createStockLedger (stockEntryOf ref l) w) as [w1 o1] eqn:E1.
    apply prismaCall_cases in E1 as [Hu [(e & -> & He & Hd)|[-> Hd]]]; simpl in *.
    + intros [= <- <-]. rewrite Hd. split_and!; try done.
      * split; try done; [rewrite Hd; apply grows_refl|by intros e' [= <-]].
      * exists 0. split_and!; try done; [lia|by rewrite app_nil_r|intros; lia].
    + intros E2. apply IH in E2 as (Hr & Hrc & Hpm & k & Hk & Hs & Hok & Herr).
      rewrite Hd in *. simpl in *. split_and!; try done.
      * eapply (runs_then w w1 w' tt); [|exact Hr].
        split; try done. rewrite Hd. split; try done. exists []. by rewrite app_nil_r.
      * exists (S k). split_and!; [lia| |intros; f_equal; auto|].
        -- rewrite Hs. simpl. by rewrite <- app_assoc.
        -- intros e He. specialize (Herr e He). lia.
Qed.

Lemma createReceipt_runs (rc : Receipt) (w w' : World) o :
  createReceipt rc w = (w', o) →
  runs w w' o ∧
  stockLedger (w_db w') = stockLedger (w_db w) ∧
  paymentMethods (w_db w') = paymentMethods (w_db w) ∧
  ((∃ e, o = Thrown e ∧ receipts (w_db w') = receipts (w_db w)) ∨
   (o = Returned rc ∧ receipts (w_db w') = receipts (w_db w) ++ [rc])).
Proof.
  intros H. apply prismaCall_cases in H as [Hu [(e & -> & He & Hd)|[-> Hd]]];
    simpl in *; rewrite Hd; simpl.
  - split_and!; try done; [|by eauto]. split; try done.
    + rewrite Hd. apply grows_refl.
    + by intros e' [= <-].
  - split_and!; try done; [|by right]. split; try done.
    rewrite Hd. split; try done. exists []. by rewrite app_nil_r.
Qed.

Lemma settle_outcomes (rn : string) (r : CompleteReq) (cart : Cart) (w w' : World) o :
  settle rn r cart w = (w', o) →
  runs w w' o ∧
  ((∃ e, o = Thrown e ∧
         receipts (w_db w') = receipts (w_db w) ∧
         stockLedger (w_db w') = stockLedger (w_db w)) ∨
   (∃ created k,
         Forall2 (recorded (w_db w')) (cmp_payments r) created ∧
         receipts (w_db w') = receipts (w_db w) ++ [receiptOf rn r cart created] ∧
         k ≤ length (lines cart) ∧
         stockLedger (w_db w') =
           stockLedger (w_db w) ++ map (stockEntryOf rn) (take k (lines cart)) ∧
         ((∃ e, o = Thrown e ∧ k < length (lines cart)) ∨
          (o = Returned (receiptOf rn r cart created) ∧ k = length (lines cart))))).
Proof.
  unfold settle. rewrite bind_unfold.
  destruct (createPayments (cmp_payments r) [] w) as [w1 o1] eqn:E1.
  apply createPayments_runs in E1 as (Hr1 & Hrc1 & Hst1 & Hc1).
  destruct o1 as [created|e]; cycle 1.
  { intros [= <- <-]. split; [by eapply runs_retype|]. left. eauto. }
  destruct (Hc1 created eq_refl) as (new & Hnew & HF). simpl in Hnew. subst new.
  rewrite bind_unfold.
  destruct (createReceipt (receiptOf rn r cart created) w1) as [w2 o2] eqn:E2.
  apply createReceipt_runs in E2
    as (Hr2 & Hst2 & Hpm2 & [(e & -> & Hrc2)|[-> Hrc2]]).
  { intros [= <- <-]. split.
    - eapply runs_then; [exact Hr1|]. by eapply runs_retype.
    - left. exists e. split_and!; congruence. }
  rewrite bind_unfold. simpl receiptNumber.
  destruct (stockLoop rn (lines cart) w2) as [w3 o3] eqn:E3.
  apply stockLoop_runs in E3 as (Hr3 & Hrc3 & Hpm3 & k & Hk & Hs3 & Hok & Herr).
  assert (HF3 : Forall2 (recorded (w_db w3)) (cmp_payments r) created).
  { eapply Forall2_recorded_grows; [|exact HF].
    eapply grows_trans; [by destruct Hr2|by destruct Hr3]. }
  destruct o3 as [[]|e].
  - intros [= <- <-]. split.
    + eapply runs_then; [exact Hr1|]. eapply runs_then; [exact Hr2|].
      destruct Hr3 as [? ? ?]. by split.
    + right. exists created, k. split_and!; try done; try congruence.
      right. split; [done|]. by apply Hok.
  - intros [= <- <-]. split.
    + eapply runs_then; [exact Hr1|]. eapply runs_then; [exact Hr2|].
      by eapply runs_retype.
    + right. exists created, k. split_and!; try done; try congruence.
      left. exists e. split; [done|]. by eapply Herr.
Qed.

Lemma complete_open (faults : list (option string)) (rn : string)
    (r : CompleteReq) (s : Server) (cart : Cart) :
  carts s !! cmp_cartId r = Some cart →
  lines cart ≠ [] →
  complete faults rn r s =
    match settle rn r cart (mkWorld (db s) faults) with
    | (w, Returned receipt) =>
        (mkServer (delete (cmp_cartId r) (carts s)) (w_db w), Ok receipt)
    | (w, Thrown e) => (mkServer (carts s) (w_db w), Err 400 e)
    end.
Proof.
  intros Hc Hl. unfold complete. rewrite Hc.
  destruct (lines cart); [done|reflexivity].
Qed.

Lemma complete_outcomes (faults : list (option string)) (rn : string)
    (r : CompleteReq) (s s' : Server) (cart : Cart) (resp : Response Receipt) :
  carts s !! cmp_cartId r = Some cart →
  lines cart ≠ [] →
  complete faults rn r s = (s', resp) →
  SettleOutcome faults rn r cart s s' resp.
Proof.
  intros Hc Hl. rewrite (complete_open faults rn r s cart Hc Hl).
  destruct (settle rn r cart (mkWorld (db s) faults)) as [w o] eqn:E.
  apply settle_outcomes in E as [Hr Hcases]. simpl in *.
  destruct Hcases as [(e & -> & Hrc & Hst)
                     |(created & k & HF & Hrc & Hk & Hst & [(e & -> & Hlt)|[-> Hkl]])].
  - intros [= <- <-]. apply ReceiptNotWritten; try done.
    by apply (runs_thrown _ _ _ Hr).
  - intros [= <- <-]. eapply ReceiptWithoutAllStock; try done.
    by apply (runs_thrown _ _ _ Hr).
  - intros [= <- <-]. apply Settled; try done.
    simpl. rewrite Hst, Hkl. by rewrite firstn_all.
Qed.

Lemma complete_no_faults (faults : list (option string)) (rn : string)
    (r : CompleteReq) (s : Server) (cart : Cart) :
  carts s !! cmp_cartId r = Some cart →
  lines cart ≠ [] →
  (∀ e, Some e ∉ faults) →
  ∃ s' created,
    complete faults rn r s = (s', Ok (receiptOf rn r cart created)) ∧
    SettleOutcome faults rn r cart s s' (Ok (receiptOf rn r cart created)).
Proof.
  intros Hc Hl Hnone.
  destruct (complete faults rn r s) as [s' resp] eqn:E.
  pose proof (complete_outcomes faults rn r s s' cart resp Hc Hl E) as Ho.
  destruct Ho as [e He|e created k He|created]; try (by destruct (Hnone e)).
  exists s', created. split; [done|]. by apply Settled.
Qed.

(** A handler that finds no cart under the id answers 404. *)
Lemma missing_cart_404 (s : Server) (k : string) :
  carts s !! k = None →
  (∀ r, add_cartId r = k → add r s = (s, Err 404 "Cart not found")) ∧
  (∀ r, disc_cartId r = k → applyDiscount r s = (s, Err 404 "Cart not found")) ∧
  (∀ fs r, upd_cartId r = k → updateLine fs r s = (s, Err 404 "Cart not found")) ∧
  (∀ r, rem_cartId r = k → removeLine r s = (s, Err 404 "Cart not found")) ∧
  (∀ faults rn r, cmp_cartId r = k →
     complete faults rn r s = (s, Err 404 "Cart not found")).
Proof.
  intros Hk. split_and!; intros; subst k.
  - unfold add. by rewrite Hk.
  - unfold applyDiscount. by rewrite Hk.
  - unfold updateLine. by rewrite Hk.
  - unfold removeLine. by rewrite Hk.
  - unfold complete. by rewrite Hk.
Qed.

(** ** Settlement *)


Lemma SettleOutcome_Ok (faults : list (option string)) (rn : string)
    (r : CompleteReq) (cart : Cart) (s s' : Server) (rc : Receipt) :
  SettleOutcome faults rn r cart s s' (Ok rc) →
  ∃ created,
    rc = receiptOf rn r cart created ∧
    carts s' = delete (cmp_cartId r) (carts s) ∧
    Forall2 (recorded (db s')) (cmp_payments r) created ∧
    receipts (db s') = receipts (db s) ++ [rc] ∧
    stockLedger (db s') =
      stockLedger (db s) ++ map (stockEntryOf rn) (lines cart).
Proof. inversion 1; subst. eexists. by split_and!. Qed.

Lemma SettleOutcome_Err (faults : list (option string)) (rn : string)
    (r : CompleteReq) (cart : Cart) (s s' : Server) (code : Z) (msg : string) :
  SettleOutcome faults rn r cart s s' (Err code msg) →
  code = 400%Z ∧ Some msg ∈ faults ∧ carts s' = carts s ∧
  ((receipts (db s') = receipts (db s) ∧
    stockLedger (db s') = stockLedger (db s)) ∨
   (∃ created k,
      Forall2 (recorded (db s')) (cmp_payments r) created ∧
      receipts (db s') = receipts (db s) ++ [receiptOf rn r cart created] ∧
      k < length (lines cart) ∧
      stockLedger (db s') =
        stockLedger (db s) ++ map (stockEntryOf rn) (take k (lines cart)))).
Proof.
  inversion 1; subst; split_and!; try done; [by left|].
  right. eexists _, _. by split_and!.
Qed.

Lemma complete_Ok_cart (faults : list (option string)) (rn : string)
    (r : CompleteReq) (s s' : Server) (rc : Receipt) :
  complete faults rn r s = (s', Ok rc) →
  ∃ cart, carts s !! cmp_cartId r = Some cart ∧ lines cart ≠ [].
Proof.
  unfold complete. destruct (carts s !! cmp_cartId r) as [cart|]; [|done].
  destruct (lines cart) eqn:Hl; [done|]. intros _. exists cart. by rewrite Hl.
Qed.




(** The stock loop on a script that opens with [j] calls that return and
    then a throw: the entries of the first [j] lines are written, and the
    loop stops there. *)
Lemma stockLoop_fails_at (ref : string) (ls : list CartLine) :
  ∀ (j : nat) (d : Db) (e : string) (rest : list (option string)),
    j < length ls →
    ∃ d',
      stockLoop ref ls (mkWorld d (replicate j None ++ Some e :: rest))
        = (mkWorld d' rest, Thrown e) ∧
      receipts d' = receipts d ∧
      stockLedger d' = stockLedger d ++ map (stockEntryOf ref) (take j ls).
Proof.
  induction ls as [|l ls IH]; intros j d e rest Hj; simpl in Hj; [lia|].
  destruct j as [|j].
  - exists d. split_and!; [reflexivity|done|]. by rewrite take_0, app_nil_r.
  - destruct (IH j (mkDb (items d) (barcodes d) (taxes d) (paymentMethods d)
                         (receipts d) (stockLedger d ++ [stockEntryOf ref l]))
                 e rest ltac:(lia)) as (d' & Hrun & Hrc & Hst).
    exists d'. split_and!.
    + simpl. rewrite bind_unfold. exact Hrun.
    + exact Hrc.
    + rewrite Hst. simpl. by rewrite <- app_assoc.
Qed.

(** C2, as the code has it. The receipt, its lines and its payments are
    written by one nested create, together or not at all; the stock entries
    are written afterwards, one call per line in cart order, outside any
    transaction.  In every outcome of [complete] on an open cart with a
    line, the stock entries added are those of the first [k] lines; if the
    receipt was not written then [k = 0] and the answer is an error; if it
    was written it has all its lines and payments, the answer is the
    receipt and the cart is retired exactly when [k] is the number of
    lines, and otherwise the answer is an error, the cart stays, and the
    receipt and the [k] entries written so far stay persisted.  Where the
    first throw falls decides the outcome: once the payment loop has
    returned, a throw of the receipt create leaves receipts and stock as
    they were; a throw of the stock write of line [j], after the receipt
    create and [j] stock writes have returned, leaves the receipt and the
    entries of the first [j] lines in the database, answers 400 with the
    message thrown and keeps the cart. *)
Theorem settlement_writes_receipt_then_stock_entries
    (faults : list (option string)) (rn : string) (r : CompleteReq)
    (s s' : Server) (cart : Cart) (resp : Response Receipt) :
  carts s !! cmp_cartId r = Some cart →
  lines cart ≠ [] →
  complete faults rn r s = (s', resp) →
  (∃ k, k ≤ length (lines cart) ∧
    stockLedger (db s') =
      stockLedger (db s) ++ map (stockEntryOf rn) (take k (lines cart)) ∧
    ((receipts (db s') = receipts (db s) ∧ k = 0 ∧
      carts s' = carts s ∧ ∃ e, resp = Err 400 e) ∨
     (∃ rc,
        receipts (db s') = receipts (db s) ++ [rc] ∧
        receiptNumber rc = rn ∧
        receiptLines rc = map receiptLineOf (lines cart) ∧
        Forall2 (recorded (db s')) (cmp_payments r) (payments rc) ∧
        (k = length (lines cart) →
           resp = Ok rc ∧ carts s' = delete (cmp_cartId r) (carts s)) ∧
        (k < length (lines cart) →
           carts s' = carts s ∧ ∃ e, resp = Err 400 e)))) ∧
  (∀ w1 created e rest,
     createPayments (cmp_payments r) [] (mkWorld (db s) faults)
       = (w1, Returned created) →
     (w_faults w1 = Some e :: rest →
        resp = Err 400 e ∧ carts s' = carts s ∧
        receipts (db s') = receipts (db s) ∧
        stockLedger (db s') = stockLedger (db s)) ∧
     (∀ j, w_faults w1 = None :: replicate j None ++ Some e :: rest →
           j < length (lines cart) →
           resp = Err 400 e ∧ carts s' = carts s ∧
           receipts (db s') = receipts (db s) ++ [receiptOf rn r cart created] ∧
           stockLedger (db s') =
             stockLedger (db s) ++ map (stockEntryOf rn) (take j (lines cart)))).
Proof.
  intros Hc Hl E. split; cycle 1.
  { intros w1 created e rest Hpay.
    rewrite (complete_open faults rn r s cart Hc Hl) in E.
    unfold settle in E. rewrite bind_unfold, Hpay, bind_unfold in E.
    apply createPayments_runs in Hpay as (_ & Hrc1 & Hst1 & _). simpl in Hrc1, Hst1.
    destruct w1 as [d1 fs1]. simpl in *. split.
    - intros ->. unfold createReceipt, prismaCall in E. simpl in E.
      injection E as <- <-. by split_and!.
    - intros j -> Hj. unfold createReceipt, prismaCall in E. simpl in E.
      rewrite bind_unfold in E.
      destruct (stockLoop_fails_at rn (lines cart) j
                  (mkDb (items d1) (barcodes d1) (taxes d1) (paymentMethods d1)
                        (receipts d1 ++ [receiptOf rn r cart created]) (stockLedger d1))
                  e rest Hj) as (d' & Hrun & Hrc & Hst).
      rewrite Hrun in E. injection E as <- <-. simpl.
      rewrite Hrc, Hst. simpl. rewrite Hrc1, Hst1. by split_and!. }
  pose proof (complete_outcomes faults rn r s s' cart resp Hc Hl E) as Ho.
  destruct resp as [rc|code msg].
  - apply SettleOutcome_Ok in Ho as (created & -> & Hcarts & HF & Hrc & Hst).
    exists (length (lines cart)). split; [done|]. rewrite firstn_all.
    split; [done|]. right. eexists. split_and!; try done. intros; lia.
  - apply SettleOutcome_Err in Ho
      as (-> & Hin & Hcarts & [[Hrc Hst]|(created & k & HF & Hrc & Hk & Hst)]).
    + exists 0. split; [lia|]. rewrite take_0. simpl. rewrite app_nil_r.
      split; [done|]. left. split_and!; try done. by eexists.
    + exists k. split; [lia|]. split; [done|]. right.
      eexists. split_and!; try done; [intros; lia|].
      intros _. split; [done|by eexists].
Qed.

Lemma settlement_writes_receipt_then_stock_entries_witness :
  carts twoLineServer !! cmp_cartId cashTender = Some twoLineCart ∧
  createPayments (cmp_payments cashTender) []
                 (mkWorld (db twoLineServer) secondStockWriteFails)
    = (mkWorld (db twoLineServer) [None; None; Some "SQLITE_BUSY"],
       Returned [mkPayment 200 None "SUCCESS" 1]) ∧
  snd stockFaultRun = Err 400 "SQLITE_BUSY" ∧
  carts (fst stockFaultRun) = carts twoLineServer ∧
  receipts (db (fst stockFaultRun)) =
    receipts (db twoLineServer) ++ [settledReceipt] ∧
  stockLedger (db (fst stockFaultRun)) =
    stockLedger (db twoLineServer) ++
      map (stockEntryOf "R1") (take 1 (lines twoLineCart)).
Proof.
  assert (Hc : carts twoLineServer !! cmp_cartId cashTender = Some twoLineCart)
    by (vm_compute; reflexivity).
  assert (Hl : lines twoLineCart ≠ []) by discriminate.
  assert (Hrun : complete secondStockWriteFails "R1" cashTender twoLineServer
                 = (fst stockFaultRun, snd stockFaultRun)).
  { unfold stockFaultRun. by destruct (complete _ _ _ _). }
  assert (Hpay : createPayments (cmp_payments cashTender) []
                   (mkWorld (db twoLineServer) secondStockWriteFails)
                 = (mkWorld (db twoLineServer) [None; None; Some "SQLITE_BUSY"],
                    Returned [mkPayment 200 None "SUCCESS" 1]))
    by (vm_compute; reflexivity).
  split; [exact Hc|]. split; [exact Hpay|].
  apply (proj2 (proj2 (settlement_writes_receipt_then_stock_entries
                         secondStockWriteFails "R1" cashTender twoLineServer
                         (fst stockFaultRun) twoLineCart (snd stockFaultRun)
                         Hc Hl Hrun)
                      _ _ "SQLITE_BUSY" [] Hpay) 1).
  - reflexivity.
  - simpl. lia.
Defined.

(** C2 fails as stated: with a two-line cart, when the second
    [stockLedger.create] throws, the answer is an error and the cart stays,
    but the receipt with its two lines and its payment is persisted, and so
    is the stock entry of the first line. *)
Lemma settlement_not_atomic_counterexample :
  ∃ s' rc e1,
    complete secondStockWriteFails "R1" cashTender twoLineServer =
      (s', Err 400 "SQLITE_BUSY") ∧
    receipts (db s') = [rc] ∧
    length (receiptLines rc) = 2 ∧
    length (payments rc) = 1 ∧
    stockLedger (db s') = [e1] ∧
    carts s' !! "c1" = Some twoLineCart.
Proof.
  eexists _, _, _. split; [vm_compute; reflexivity|].
  split_and!; vm_compute; reflexivity.
Qed.

(** Runs in which no call throws. *)
Lemma prismaCall_quiet {A} (op : Db → Db * A) (w : World) :
  (∀ e, Some e ∉ w_faults w) →
  ∃ fs', prismaCall op w
         = (mkWorld (fst (op (w_db w))) fs', Returned (snd (op (w_db w)))) ∧
         (∀ e, Some e ∉ fs').
Proof.
  intros Hq. unfold prismaCall.
  destruct (w_faults w) as [|[e|] fs] eqn:Hf; destruct (op (w_db w)) as [d a]; simpl.
  - by exists [].
  - destruct (Hq e). by left.
  - exists fs. split; [done|]. intros e He. destruct (Hq e). by right.
Qed.

Lemma ensurePaymentMethod_quiet (m : string) (w : World) :
  (∀ e, Some e ∉ w_faults w) →
  ∃ w' pm extra,
    ensurePaymentMethod m w = (w', Returned pm) ∧
    (∀ e, Some e ∉ w_faults w') ∧
    paymentMethods (w_db w') = paymentMethods (w_db w) ++ extra ∧
    Forall namedByCode extra.
Proof.
  intros Hq. unfold ensurePaymentMethod, findFirstPaymentMethod.
  rewrite bind_unfold.
  destruct (prismaCall_quiet
              (fun d => (d, find (pmMatches m) (paymentMethods d))) w Hq)
    as (fs1 & -> & Hq1). simpl.
  destruct (find (pmMatches m) (paymentMethods (w_db w))) as [pm|].
  - exists (mkWorld (w_db w) fs1), pm, []. split_and!; try done.
    simpl. by rewrite app_nil_r.
  - unfold tryCatch, createPaymentMethod.
    match goal with
    | |- context [prismaCall ?op ?w0] =>
        destruct (prismaCall_quiet op w0 Hq1) as (fs2 & -> & Hq2)
    end. simpl.
    eexists _, _, _. split_and!; try done.
    by repeat constructor.
Qed.

Lemma createPayments_quiet (ps : list PaymentReq) : ∀ acc w,
  (∀ e, Some e ∉ w_faults w) →
  ∃ w' created extra,
    createPayments ps acc w = (w', Returned created) ∧
    (∀ e, Some e ∉ w_faults w') ∧
    paymentMethods (w_db w') = paymentMethods (w_db w) ++ extra ∧
    Forall namedByCode extra.
Proof.
  induction ps as [|p ps IH]; intros acc w Hq; simpl.
  - exists w, acc, []. split_and!; try done. by rewrite app_nil_r.
  - rewrite bind_unfold.
    destruct (ensurePaymentMethod_quiet (methodName p) w Hq)
      as (w1 & pm & x1 & -> & Hq1 & Hpm1 & Hx1).
    destruct (IH (acc ++ [paymentOf p pm]) w1 Hq1)
      as (w2 & created & x2 & E2 & Hq2 & Hpm2 & Hx2).
    exists w2, created, (x1 ++ x2). split_and!; try done.
    + by rewrite Hpm2, Hpm1, app_assoc.
    + by apply Forall_app.
Qed.

(** In a run where no call throws, the rows that [complete] adds to the
    payment methods are named by their code. *)
Lemma complete_quiet_paymentMethods (faults : list (option string)) (rn : string)
    (r : CompleteReq) (s : Server) :
  (∀ e, Some e ∉ faults) →
  ∃ extra,
    paymentMethods (db (fst (complete faults rn r s)))
      = paymentMethods (db s) ++ extra ∧
    Forall namedByCode extra.
Proof.
  intros Hq. unfold complete.
  destruct (carts s !! cmp_cartId r) as [cart|];
    [|exists []; by rewrite app_nil_r].
  destruct (length (lines cart) =? 0)%nat; [exists []; by rewrite app_nil_r|].
  destruct (settle rn r cart (mkWorld (db s) faults)) as [w o] eqn:E.
  assert (H : ∃ extra, paymentMethods (w_db w) = paymentMethods (db s) ++ extra ∧
                       Forall namedByCode extra); [|by destruct o].
  unfold settle in E. rewrite bind_unfold in E.
  destruct (createPayments_quiet (cmp_payments r) [] (mkWorld (db s) faults) Hq)
    as (w1 & created & extra & E1 & _ & Hpm1 & Hx).
  rewrite E1, bind_unfold in E. exists extra. split; [|done].
  destruct (createReceipt _ w1) as [w2 o2] eqn:E2.
  apply createReceipt_runs in E2 as (_ & _ & Hpm2 & _).
  destruct o2 as [rc|e]; [|injection E as <- <-; by rewrite Hpm2, Hpm1].
  rewrite bind_unfold in E.
  destruct (stockLoop _ _ w2) as [w3 o3] eqn:E3.
  apply stockLoop_runs in E3 as (_ & _ & Hpm3 & _).
  destruct o3 as [[]|e]; injection E as <- <-; by rewrite Hpm3, Hpm2, Hpm1.
Qed.

(** C5, as the code has it. Tenders are posted with [complete] and are not
    validated: in a run where no Prisma call throws, every tender of the
    request, whatever its amount and method code, is recorded on the
    receipt with its amount as posted and status SUCCESS, against a
    payment-method row whose code or name is the upper-cased method name
    (CASH when none is given).  When no row of the store matches that
    name, the row the payment points to is one that the run has added,
    with the method name as its code and as its name. *)
Theorem complete_records_every_tender
    (faults : list (option string)) (rn : string) (r : CompleteReq)
    (s : Server) (cart : Cart) :
  carts s !! cmp_cartId r = Some cart →
  lines cart ≠ [] →
  (∀ e, Some e ∉ faults) →
  ∃ s' rc,
    complete faults rn r s = (s', Ok rc) ∧
    Forall2 (recorded (db s')) (cmp_payments r) (payments rc) ∧
    Forall2 (fun p pay =>
               (∀ pm, pm ∈ paymentMethods (db s) →
                      pmMatches (methodName p) pm = false) →
               mkPaymentMethod (paymentMethodId pay)
                               (Some (methodName p)) (methodName p)
                 ∈ paymentMethods (db s') ∧
               mkPaymentMethod (paymentMethodId pay)
                               (Some (methodName p)) (methodName p)
                 ∉ paymentMethods (db s))
            (cmp_payments r) (payments rc).
Proof.
  intros Hc Hl Hnone.
  destruct (complete_no_faults faults rn r s cart Hc Hl Hnone)
    as (s' & created & Hrun & Ho).
  exists s', (receiptOf rn r cart created). split; [done|].
  apply SettleOutcome_Ok in Ho as (created' & -> & _ & HF & _).
  split; [done|].
  destruct (complete_quiet_paymentMethods faults rn r s Hnone)
    as (extra & Hpm & Hx).
  rewrite Hrun in Hpm. simpl in Hpm.
  eapply Forall2_impl; [exact HF|].
  intros p pay (_ & _ & pm & Hin & Hid & Hm) Hunknown. simpl.
  assert (Hnew : pm ∈ extra).
  { rewrite Hpm in Hin. apply elem_of_app in Hin as [Hold|Hnew]; [|done].
    rewrite (Hunknown pm Hold) in Hm. done. }
  rewrite Forall_forall in Hx. specialize (Hx pm Hnew).
  assert (Hname : pm_name pm = methodName p).
  { unfold pmMatches in Hm. rewrite Hx in Hm.
    apply orb_true_iff in Hm as [Hm|Hm]; by apply String.eqb_eq in Hm. }
  assert (Hrow : pm = mkPaymentMethod (paymentMethodId pay)
                        (Some (methodName p)) (methodName p)).
  { destruct pm as [i c n]. simpl in *. unfold namedByCode in Hx. simpl in Hx.
    by subst. }
  rewrite <- Hrow. split; [done|].
  intros Hold. rewrite (Hunknown pm Hold) in Hm. done.
Qed.

Lemma complete_records_every_tender_witness :
  carts oneLineServer !! cmp_cartId oddTender = Some oneLineCart ∧
  ∃ s' rc,
    complete [] "R1" oddTender oneLineServer = (s', Ok rc) ∧
    Forall2 (recorded (db s')) (cmp_payments oddTender) (payments rc) ∧
    Forall2 (fun p pay =>
               (∀ pm, pm ∈ paymentMethods (db oneLineServer) →
                      pmMatches (methodName p) pm = false) →
               mkPaymentMethod (paymentMethodId pay)
                               (Some (methodName p)) (methodName p)
                 ∈ paymentMethods (db s') ∧
               mkPaymentMethod (paymentMethodId pay)
                               (Some (methodName p)) (methodName p)
                 ∉ paymentMethods (db oneLineServer))
            (cmp_payments oddTender) (payments rc).
Proof.
  assert (Hc : carts oneLineServer !! cmp_cartId oddTender = Some oneLineCart)
    by (vm_compute; reflexivity).
  split; [exact Hc|].
  apply (complete_records_every_tender [] "R1" oddTender oneLineServer
           oneLineCart Hc).
  - discriminate.
  - intros e He. inversion He.
Defined.

(** C5 fails as stated: a tender of [-5] under the method code [bitcoin] is
    not rejected; the receipt records a payment of [-5], and a
    payment-method row BITCOIN is added to the store. *)
Lemma complete_accepts_unknown_method_counterexample :
  Forall (fun p => (methodName p ∉ recognizedMethods) ∧
                   (toNum (p_amount p) <= 0)%Q)
         (cmp_payments oddTender) ∧
  ∃ s' rc,
    complete [] "R1" oddTender oneLineServer = (s', Ok rc) ∧
    payments rc = [mkPayment (-5) None "SUCCESS" 7] ∧
    paymentMethods (db s') =
      paymentMethods (db oneLineServer) ++
        [mkPaymentMethod 7 (Some "BITCOIN") "BITCOIN"].
Proof.
  split.
  - repeat constructor.
    + apply (bool_decide_unpack _). vm_compute. reflexivity.
    + vm_compute. discriminate.
  - eexists _, _. split; [vm_compute; reflexivity|].
    split_and!; vm_compute; reflexivity.
Qed.

(** C9, as the code has it. After [complete] has answered with the receipt,
    the cart id is absent from the registry, so [add], [discount],
    [updateLine], [removeLine] and [complete] on that id all answer
    "Cart not found"; the stock ledger has gained exactly one entry per line
    of the settled cart, in order, each with the item of the line, the
    receipt number as reference and quantity [-|quantity|], which is the
    negation of the line quantity when that quantity is not negative. *)
Theorem settled_cart_is_gone_and_stock_is_posted
    (faults : list (option string)) (rn : string) (r : CompleteReq)
    (s s' : Server) (rc : Receipt) :
  complete faults rn r s = (s', Ok rc) →
  carts s' !! cmp_cartId r = None ∧
  (∀ q, add_cartId q = cmp_cartId r → add q s' = (s', Err 404 "Cart not found")) ∧
  (∀ q, disc_cartId q = cmp_cartId r →
        applyDiscount q s' = (s', Err 404 "Cart not found")) ∧
  (∀ fs q, upd_cartId q = cmp_cartId r →
        updateLine fs q s' = (s', Err 404 "Cart not found")) ∧
  (∀ q, rem_cartId q = cmp_cartId r →
        removeLine q s' = (s', Err 404 "Cart not found")) ∧
  (∀ faults' rn' q, cmp_cartId q = cmp_cartId r →
        complete faults' rn' q s' = (s', Err 404 "Cart not found")) ∧
  ∃ cart entries,
    carts s !! cmp_cartId r = Some cart ∧
    stockLedger (db s') = stockLedger (db s) ++ entries ∧
    Forall2 (fun l e =>
               sl_itemId e = itemId l ∧
               sl_reference e = receiptNumber rc ∧
               sl_quantity e = (- Qabs (quantity l))%Q ∧
               ((0 <= quantity l)%Q → (sl_quantity e == - quantity l)%Q))
            (lines cart) entries.
Proof.
  intros E.
  destruct (complete_Ok_cart faults rn r s s' rc E) as (cart & Hc & Hl).
  pose proof (complete_outcomes faults rn r s s' cart _ Hc Hl E) as Ho.
  apply SettleOutcome_Ok in Ho as (created & -> & Hcarts & HF & Hrc & Hst).
  assert (Hgone : carts s' !! cmp_cartId r = None).
  { rewrite Hcarts. apply lookup_delete_eq. }
  split; [done|].
  destruct (missing_cart_404 s' (cmp_cartId r) Hgone) as (H1 & H2 & H3 & H4 & H5).
  split_and!; try done.
  exists cart, (map (stockEntryOf rn) (lines cart)). split_and!; try done.
  apply Forall2_fmap_r, Forall_Forall2_diag, Forall_forall.
  intros l _. simpl. split_and!; try done.
  intros Hq. by rewrite Qabs_pos.
Qed.

Lemma settled_cart_is_gone_and_stock_is_posted_witness :
  complete [] "R1" cashTender twoLineServer = (settledTwoLine, Ok settledReceipt) ∧
  carts settledTwoLine !! cmp_cartId cashTender = None ∧
  (∀ q, add_cartId q = cmp_cartId cashTender →
        add q settledTwoLine = (settledTwoLine, Err 404 "Cart not found")) ∧
  (∀ q, disc_cartId q = cmp_cartId cashTender →
        applyDiscount q settledTwoLine = (settledTwoLine, Err 404 "Cart not found")) ∧
  (∀ fs q, upd_cartId q = cmp_cartId cashTender →
        updateLine fs q settledTwoLine = (settledTwoLine, Err 404 "Cart not found")) ∧
  (∀ q, rem_cartId q = cmp_cartId cashTender →
        removeLine q settledTwoLine = (settledTwoLine, Err 404 "Cart not found")) ∧
  (∀ faults' rn' q, cmp_cartId q = cmp_cartId cashTender →
        complete faults' rn' q settledTwoLine =
          (settledTwoLine, Err 404 "Cart not found")) ∧
  ∃ cart entries,
    carts twoLineServer !! cmp_cartId cashTender = Some cart ∧
    stockLedger (db settledTwoLine) = stockLedger (db twoLineServer) ++ entries ∧
    Forall2 (fun l e =>
               sl_itemId e = itemId l ∧
               sl_reference e = receiptNumber settledReceipt ∧
               sl_quantity e = (- Qabs (quantity l))%Q ∧
               ((0 <= quantity l)%Q → (sl_quantity e == - quantity l)%Q))
            (lines cart) entries.
Proof.
  assert (E : complete [] "R1" cashTender twoLineServer
              = (settledTwoLine, Ok settledReceipt)) by (vm_compute; reflexivity).
  split; [exact E|].
  exact (settled_cart_is_gone_and_stock_is_posted [] "R1" cashTender
           twoLineServer settledTwoLine settledReceipt E).
Defined.

(** C9 fails as stated: [add] accepts a quantity of [-2]; settling that
    line posts a stock entry of [-2], which is not the negation of the line
    quantity. *)
Lemma stock_entry_of_negative_line_counterexample :
  ∃ l s' rc e,
    lines <$> carts negativeLineServer !! "c2" = Some [l] ∧
    (quantity l == -2)%Q ∧
    complete [] "R1" settleNegative negativeLineServer = (s', Ok rc) ∧
    stockLedger (db s') = [e] ∧
    (sl_quantity e == -2)%Q ∧
    ¬ (sl_quantity e == - quantity l)%Q.
Proof.
  eexists _, _, _, _. split; [vm_compute; reflexivity|].
  split; [vm_compute; reflexivity|].
  split; [vm_compute; reflexivity|].
  split; [vm_compute; reflexivity|].
  split; [vm_compute; reflexivity|].
  intros H. vm_compute in H. discriminate H.
Qed.

(** ** Tax amounts *)

Lemma add_appends_a_new_line (r : AddReq) (s : Server) (cart : Cart) (item : Item) :
  carts s !! add_cartId r = Some cart →
  lookupItem r (db s) = Some item →
  add r s =
    (mkServer (<[add_cartId r :=
                 mkCart (cartId cart) (lines cart ++ [newLine (db s) item (add_qty r)])]>
                (carts s)) (db s),
     Ok (mkCart (cartId cart) (lines cart ++ [newLine (db s) item (add_qty r)]))).
Proof.
  intros Hc Hi. unfold add. rewrite Hc. unfold lookupItem in Hi. rewrite Hi.
  unfold newLine.
  destruct (match truthyId (taxId item) with Some _ => _ | None => _ end) as [tid ta].
  reflexivity.
Qed.

Lemma add_unknown_item_answers_404 (r : AddReq) (s : Server) (cart : Cart) :
  carts s !! add_cartId r = Some cart →
  lookupItem r (db s) = None →
  add r s = (s, Err 404 "Item not found").
Proof.
  intros Hc Hi. unfold add. rewrite Hc. unfold lookupItem in Hi. by rewrite Hi.
Qed.



Lemma updateLine_Ok_reprice (fs : list (option string)) (r : UpdateLineReq)
    (s s' : Server) (cart' : Cart) :
  updateLine fs r s = (s', Ok cart') →
  removesLine (upd_quantity r) = false →
  ∃ cart i l,
    carts s !! upd_cartId r = Some cart ∧
    arrayGet (lines cart) (Number (upd_lineIndex r)) = Some (i, l) ∧
    cart' = mkCart (cartId cart) (<[i := repriceLine (db s) r l]> (lines cart)) ∧
    s' = mkServer (<[upd_cartId r := cart']> (carts s)) (db s).
Proof.
  intros H Hrem.
  destruct (carts s !! upd_cartId r) as [cart|] eqn:Hc;
    [|unfold updateLine in H; by rewrite Hc in H].
  destruct (arrayGet (lines cart) (Number (upd_lineIndex r))) as [[i line]|] eqn:Hget;
    [|unfold updateLine in H; by rewrite Hc, Hget in H].
  destruct (updateLine_cases fs r s cart i line Hc Hget Hrem)
    as [E|(t & e & rest & _ & _ & E)]; rewrite E in H; [|done].
  injection H as <- <-. by exists cart, i, line.
Qed.





(** * Further properties *)

(** ** Frame of the cart handlers *)

Lemma add_frame (r : AddReq) (s : Server) (k : string) :
  db (fst (add r s)) = db s ∧
  (k ≠ add_cartId r → carts (fst (add r s)) !! k = carts s !! k).
Proof.
  unfold add. destruct (carts s !! add_cartId r) as [cart|]; [|done].
  match goal with
  | |- context [match ?i with
                | Some _ => _
                | None => (s, Err 404 "Item not found")
                end] => destruct i as [item|]
  end; [|done].
  destruct (match truthyId (taxId item) with Some _ => _ | None => _ end).
  simpl. split; [done|]. intros Hk. by rewrite lookup_insert_ne.
Qed.

Lemma applyDiscount_frame (r : DiscountReq) (s : Server) (k : string) :
  db (fst (applyDiscount r s)) = db s ∧
  (k ≠ disc_cartId r → carts (fst (applyDiscount r s)) !! k = carts s !! k).
Proof.
  unfold applyDiscount. destruct (carts s !! disc_cartId r) as [cart|]; [|done].
  simpl. split; [done|]. intros Hk. by rewrite lookup_insert_ne.
Qed.

Lemma updateLine_frame (fs : list (option string)) (r : UpdateLineReq)
    (s : Server) (k : string) :
  db (fst (updateLine fs r s)) = db s ∧
  (k ≠ upd_cartId r → carts (fst (updateLine fs r s)) !! k = carts s !! k).
Proof.
  unfold updateLine. destruct (carts s !! upd_cartId r) as [cart|]; [|done].
  destruct (arrayGet _ _) as [[i l]|]; [|done].
  destruct (removesLine _);
    [|destruct (readTaxRatePct _ _) as [w [pct|e]]];
    simpl; (split; [done|]); intros Hk; by rewrite lookup_insert_ne.
Qed.

Lemma removeLine_frame (r : RemoveLineReq) (s : Server) (k : string) :
  db (fst (removeLine r s)) = db s ∧
  (k ≠ rem_cartId r → carts (fst (removeLine r s)) !! k = carts s !! k).
Proof.
  unfold removeLine. destruct (carts s !! rem_cartId r) as [cart|]; [|done].
  destruct (_ || _); [done|]. simpl. split; [done|].
  intros Hk. by rewrite lookup_insert_ne.
Qed.

Lemma complete_frame (faults : list (option string)) (rn : string)
    (r : CompleteReq) (s : Server) (k : string) :
  k ≠ cmp_cartId r → carts (fst (complete faults rn r s)) !! k = carts s !! k.
Proof.
  intros Hk. unfold complete.
  destruct (carts s !! cmp_cartId r) as [cart|]; [|done].
  destruct (length (lines cart) =? 0)%nat; [done|].
  destruct (settle _ _ _ _) as [w [rc|e]]; simpl; [|done].
  by rewrite lookup_delete_ne.
Qed.

(** X1. A cart operation changes neither the database nor any cart but its
    own: [add], [discount], [updateLine] (also when its tax lookup throws)
    and [removeLine] leave the database
    and every other cart as they were, and [complete] leaves every other
    cart as it was. *)
Theorem cart_operations_touch_one_cart (s : Server) (k : string) :
  (∀ r, db (fst (add r s)) = db s ∧
        (k ≠ add_cartId r → carts (fst (add r s)) !! k = carts s !! k)) ∧
  (∀ r, db (fst (applyDiscount r s)) = db s ∧
        (k ≠ disc_cartId r → carts (fst (applyDiscount r s)) !! k = carts s !! k)) ∧
  (∀ fs r, db (fst (updateLine fs r s)) = db s ∧
        (k ≠ upd_cartId r → carts (fst (updateLine fs r s)) !! k = carts s !! k)) ∧
  (∀ r, db (fst (removeLine r s)) = db s ∧
        (k ≠ rem_cartId r → carts (fst (removeLine r s)) !! k = carts s !! k)) ∧
  (∀ faults rn r, k ≠ cmp_cartId r →
        carts (fst (complete faults rn r s)) !! k = carts s !! k).
Proof.
  split_and!; intros.
  - apply add_frame.
  - apply applyDiscount_frame.
  - apply updateLine_frame.
  - apply removeLine_frame.
  - by apply complete_frame.
Qed.

(** ** Adding a line *)

(** ** Index handling of removeLine and updateLine *)

Lemma Qle_bool_false (x y : Q) : Qle_bool x y = false ↔ (y < x)%Q.
Proof.
  split.
  - intros H. apply Qnot_le_lt. intros Hle. apply Qle_bool_iff in Hle. congruence.
  - intros H. destruct (Qle_bool x y) eqn:E; [|done].
    apply Qle_bool_iff in E. by apply Qlt_not_le in H.
Qed.

Lemma toInteger_nonneg (q : Q) :
  (0 <= q)%Q → toInteger (Fin q) = Qfloor q ∧ (0 ≤ Qfloor q)%Z.
Proof.
  intros H. unfold toInteger.
  assert (Qle_bool 0 q = true) as -> by by apply Qle_bool_iff.
  split; [done|]. change 0%Z with (Qfloor 0). by apply Qfloor_resp_le.
Qed.

Lemma Qfloor_lt_len (q : Q) (n : nat) :
  (q < inject_Z (Z.of_nat n))%Q → (Qfloor q < Z.of_nat n)%Z.
Proof.
  intros H. apply Z.lt_nge. intros Hge.
  apply (Qlt_not_le _ _ H). apply Qle_trans with (inject_Z (Qfloor q)).
  - by rewrite <- Zle_Qle.
  - apply Qfloor_le.
Qed.

(** An in-range start, integer or not: [splice] removes the element at the
    truncated position. *)
Lemma splice1_in_range {A} (l : list A) (q : Q) :
  (0 <= q)%Q → (q < inject_Z (Z.of_nat (length l)))%Q →
  splice1 l (Fin q) = delete (Z.to_nat (Qfloor q)) l.
Proof.
  intros H0 Hlt. destruct (toInteger_nonneg q H0) as [Hti Hnn].
  pose proof (Qfloor_lt_len q _ Hlt) as Hfl.
  unfold splice1. rewrite Hti.
  replace (Qfloor q <? 0)%Z with false by lia.
  replace (Z.min (Qfloor q) _) with (Qfloor q) by lia.
  replace (Z.min 1 _) with 1%Z by lia.
  replace (Z.to_nat (Qfloor q + 1)) with (S (Z.to_nat (Qfloor q))) by lia.
  by rewrite delete_take_drop.
Qed.

(** X4. [removeLine] checks the bounds of the index and not that it is an
    integer: an index below 0, or not below the number of lines, answers
    "Line not found" and changes nothing; any other index, fractional or
    not, removes the line at its integer part and no other. *)
Theorem removeLine_checks_bounds_not_integrality
    (r : RemoveLineReq) (s : Server) (cart : Cart) (q : Q) :
  carts s !! rem_cartId r = Some cart →
  Number (rem_lineIndex r) = Fin q →
  ((q < 0)%Q ∨ (inject_Z (Z.of_nat (length (lines cart))) <= q)%Q →
     removeLine r s = (s, Err 404 "Line not found")) ∧
  ((0 <= q)%Q ∧ (q < inject_Z (Z.of_nat (length (lines cart))))%Q →
     ∃ cart',
       removeLine r s =
         (mkServer (<[rem_cartId r := cart']> (carts s)) (db s), Ok cart') ∧
       cartId cart' = cartId cart ∧
       lines cart' = delete (Z.to_nat (Qfloor q)) (lines cart) ∧
       S (length (lines cart')) = length (lines cart)).
Proof.
  intros Hc Hn. unfold removeLine. rewrite Hc, Hn. simpl. split.
  - intros [Hlt|Hge].
    + assert (Qle_bool 0 q = false) as -> by by apply Qle_bool_false.
      done.
    + assert (Qle_bool (inject_Z (Z.of_nat (length (lines cart)))) q = true) as ->
        by by apply Qle_bool_iff.
      by rewrite orb_true_r.
  - intros [H0 Hlt].
    assert (Qle_bool 0 q = true) as -> by by apply Qle_bool_iff.
    assert (Qle_bool (inject_Z (Z.of_nat (length (lines cart)))) q = false) as ->
      by by apply Qle_bool_false.
    simpl. eexists. split; [reflexivity|]. simpl.
    rewrite (splice1_in_range _ q H0 Hlt). split_and!; try done.
    pose proof (Qfloor_lt_len q _ Hlt) as Hfl.
    destruct (toInteger_nonneg q H0) as [_ Hnn].
    rewrite length_delete; [lia|].
    apply lookup_lt_is_Some_2. lia.
Qed.

Lemma removeLine_checks_bounds_not_integrality_witness :
  carts twoLineServer !! rem_cartId removeHalf = Some twoLineCart ∧
  (0 <= 0.5)%Q ∧
  (0.5 < inject_Z (Z.of_nat (length (lines twoLineCart))))%Q ∧
  ∃ cart',
    removeLine removeHalf twoLineServer =
      (mkServer (<[rem_cartId removeHalf := cart']> (carts twoLineServer))
                (db twoLineServer), Ok cart') ∧
    cartId cart' = cartId twoLineCart ∧
    lines cart' = delete (Z.to_nat (Qfloor 0.5)) (lines twoLineCart) ∧
    S (length (lines cart')) = length (lines twoLineCart).
Proof.
  assert (Hc : carts twoLineServer !! rem_cartId removeHalf = Some twoLineCart)
    by (vm_compute; reflexivity).
  assert (H0 : (0 <= 0.5)%Q) by (vm_compute; discriminate).
  assert (H1 : (0.5 < inject_Z (Z.of_nat (length (lines twoLineCart))))%Q)
    by (vm_compute; reflexivity).
  split_and!; [exact Hc|exact H0|exact H1|].
  exact (proj2 (removeLine_checks_bounds_not_integrality removeHalf twoLineServer
                  twoLineCart 0.5 Hc eq_refl) (conj H0 H1)).
Defined.

Lemma arrayIndex_Some (n : nat) (x : jsnum) (i : nat) :
  arrayIndex n x = Some i ↔
  ∃ q, x = Fin q ∧ (q == inject_Z (Z.of_nat i))%Q ∧ i < n.
Proof.
  split.
  - destruct x as [q|]; simpl; [|done].
    destruct (Qeq_bool q (inject_Z (Qfloor q))) eqn:E1; simpl; [|done].
    destruct (Z.leb_spec 0 (Qfloor q)); simpl; [|done].
    destruct (Nat.ltb_spec (Z.to_nat (Qfloor q)) n); [|done].
    intros [= <-]. exists q. split_and!; try done.
    apply Qeq_bool_iff in E1. rewrite Z2Nat.id by done. done.
  - intros (q & -> & Hq & Hi). by apply arrayIndex_of_nat.
Qed.

(** X5. [updateLine] answers "Line not found" and changes nothing unless the
    index is an integer from 0 to the number of lines less one; so it does
    for an absent index, a fraction, a negative number, or an index past
    the end. *)
Theorem updateLine_rejects_other_indices
    (fs : list (option string)) (r : UpdateLineReq) (s : Server) (cart : Cart) :
  carts s !! upd_cartId r = Some cart →
  (∀ i, i < length (lines cart) →
        ∀ q, Number (upd_lineIndex r) = Fin q → ¬ (q == inject_Z (Z.of_nat i))%Q) →
  updateLine fs r s = (s, Err 404 "Line not found").
Proof.
  intros Hc Hno. unfold updateLine. rewrite Hc. unfold arrayGet.
  destruct (arrayIndex _ _) as [i|] eqn:E; [|done].
  apply arrayIndex_Some in E as (q & Hn & Hq & Hi).
  by destruct (Hno i Hi q Hn).
Qed.

Lemma updateLine_rejects_other_indices_witness :
  carts oneLineServer !! upd_cartId updateHalf = Some oneLineCart ∧
  updateLine taxLookupFails updateHalf oneLineServer =
    (oneLineServer, Err 404 "Line not found").
Proof.
  assert (Hc : carts oneLineServer !! upd_cartId updateHalf = Some oneLineCart)
    by (vm_compute; reflexivity).
  split; [exact Hc|].
  apply (updateLine_rejects_other_indices taxLookupFails updateHalf oneLineServer
           oneLineCart Hc).
  intros i Hi q Hq Heq. injection Hq as <-.
  destruct i as [|i]; [|simpl in Hi; lia].
  vm_compute in Heq. discriminate Heq.
Defined.

Lemma arrayGet_inv {A} (l : list A) (x : jsnum) (i : nat) (a : A) :
  arrayGet l x = Some (i, a) → arrayIndex (length l) x = Some i ∧ l !! i = Some a.
Proof.
  unfold arrayGet. destruct (arrayIndex _ _) as [j|]; [|done].
  destruct (l !! j) eqn:E; [|done]. by intros [= <- <-].
Qed.

Lemma arrayGet_insert {A} (l : list A) (x : jsnum) (i : nat) (a b : A) :
  arrayGet l x = Some (i, a) → arrayGet (<[i := b]> l) x = Some (i, b).
Proof.
  intros H. apply arrayGet_inv in H as [Hi Ha]. unfold arrayGet.
  rewrite length_insert, Hi.
  rewrite list_lookup_insert_eq; [done|]. by eapply lookup_lt_Some.
Qed.

Lemma repriceLine_idempotent (d : Db) (r : UpdateLineReq) (l : CartLine) :
  repriceLine d r (repriceLine d r l) = repriceLine d r l.
Proof.
  unfold repriceLine; simpl.
  destruct (notNull (upd_quantity r)), (notNull (upd_unitPrice r)),
    (notNull (upd_discount r)); reflexivity.
Qed.

Lemma patchLine_repriceLine (d : Db) (r : UpdateLineReq) (l : CartLine) :
  patchLine r (repriceLine d r l) = repriceLine d r l.
Proof.
  unfold patchLine, repriceLine; simpl.
  destruct (notNull (upd_quantity r)), (notNull (upd_unitPrice r)),
    (notNull (upd_discount r)); reflexivity.
Qed.

(** X6. A patch that does not remove the line rewrites the line at the
    posted index and no other: the index is an integer [i] in range, the
    cart keeps its length and every line but line [i]; line [i] keeps its
    item, its tax rate and its name; its quantity, unit price and discount
    take the posted value, or keep the stored one where the field is
    absent or null. *)
Theorem updateLine_rewrites_one_line
    (fs : list (option string)) (r : UpdateLineReq) (s s' : Server) (cart' : Cart) :
  updateLine fs r s = (s', Ok cart') →
  removesLine (upd_quantity r) = false →
  ∃ cart q i l l',
    carts s !! upd_cartId r = Some cart ∧
    Number (upd_lineIndex r) = Fin q ∧
    (q == inject_Z (Z.of_nat i))%Q ∧
    lines cart !! i = Some l ∧
    lines cart' !! i = Some l' ∧
    length (lines cart') = length (lines cart) ∧
    (∀ j, j ≠ i → lines cart' !! j = lines cart !! j) ∧
    itemId l' = itemId l ∧ taxRateId l' = taxRateId l ∧ name l' = name l ∧
    quantity l' = default (quantity l) (notNull (upd_quantity r)) ∧
    unitPrice l' = default (unitPrice l) (notNull (upd_unitPrice r)) ∧
    discount l' = default (discount l) (notNull (upd_discount r)).
Proof.
  intros H Hrem.
  destruct (updateLine_Ok_reprice fs r s s' cart' H Hrem)
    as (cart & i & l & Hc & Hget & -> & _).
  apply arrayGet_inv in Hget as [Hidx Hl].
  apply arrayIndex_Some in Hidx as (q & Hn & Hq & Hi).
  exists cart, q, i, l, (repriceLine (db s) r l). simpl.
  split_and!; try done.
  - by apply list_lookup_insert_eq.
  - apply length_insert.
  - intros j Hj. by apply list_lookup_insert_ne.
Qed.

Lemma updateLine_rewrites_one_line_witness :
  updateLine [] setQuantity3 twoLineServer =
    (fst (updateLine [] setQuantity3 twoLineServer), Ok repricedTwoLineCart) ∧
  ∃ cart q i l l',
    carts twoLineServer !! upd_cartId setQuantity3 = Some cart ∧
    Number (upd_lineIndex setQuantity3) = Fin q ∧
    (q == inject_Z (Z.of_nat i))%Q ∧
    lines cart !! i = Some l ∧
    lines repricedTwoLineCart !! i = Some l' ∧
    length (lines repricedTwoLineCart) = length (lines cart) ∧
    (∀ j, j ≠ i → lines repricedTwoLineCart !! j = lines cart !! j) ∧
    itemId l' = itemId l ∧ taxRateId l' = taxRateId l ∧ name l' = name l ∧
    quantity l' = default (quantity l) (notNull (upd_quantity setQuantity3)) ∧
    unitPrice l' = default (unitPrice l) (notNull (upd_unitPrice setQuantity3)) ∧
    discount l' = default (discount l) (notNull (upd_discount setQuantity3)).
Proof.
  assert (E : updateLine [] setQuantity3 twoLineServer =
              (fst (updateLine [] setQuantity3 twoLineServer), Ok repricedTwoLineCart))
    by (vm_compute; reflexivity).
  split; [exact E|].
  exact (updateLine_rewrites_one_line [] setQuantity3 twoLineServer _
           repricedTwoLineCart E eq_refl).
Defined.

(** X7. Sending the same patch again changes nothing: after an [updateLine]
    that did not remove the line, the same request leaves the server as it
    is and answers with the same cart; should its tax lookup throw, it
    answers 400 and the server is as it is all the same. *)
Theorem updateLine_same_patch_twice
    (fs fs' : list (option string)) (r : UpdateLineReq) (s s' : Server)
    (cart' : Cart) :
  updateLine fs r s = (s', Ok cart') →
  removesLine (upd_quantity r) = false →
  updateLine fs' r s' = (s', Ok cart') ∨
  ∃ e rest, fs' = Some e :: rest ∧ updateLine fs' r s' = (s', Err 400 e).
Proof.
  intros H Hrem.
  destruct (updateLine_Ok_reprice fs r s s' cart' H Hrem)
    as (cart & i & l & Hc & Hget & -> & ->).
  set (cart' := mkCart (cartId cart) (<[i := repriceLine (db s) r l]> (lines cart))).
  set (s' := mkServer (<[upd_cartId r := cart']> (carts s)) (db s)).
  assert (Hc' : carts s' !! upd_cartId r = Some cart') by apply lookup_insert_eq.
  assert (Hget' : arrayGet (lines cart') (Number (upd_lineIndex r))
                  = Some (i, repriceLine (db s) r l))
    by apply (arrayGet_insert _ _ _ _ _ Hget).
  destruct (updateLine_cases fs' r s' cart' i _ Hc' Hget' Hrem)
    as [E|(t & e & rest & _ & Hfs & E)].
  - left. rewrite E. subst s' cart'. simpl.
    by rewrite repriceLine_idempotent, list_insert_insert_eq, insert_insert_eq.
  - right. exists e, rest. split; [done|]. rewrite E. subst s' cart'. simpl.
    by rewrite patchLine_repriceLine, list_insert_insert_eq, insert_insert_eq.
Qed.

Lemma updateLine_same_patch_twice_witness :
  updateLine [] setQuantity3 oneLineServer =
    (fst (updateLine [] setQuantity3 oneLineServer), Ok repricedCart) ∧
  (updateLine taxLookupFails setQuantity3 (fst (updateLine [] setQuantity3 oneLineServer)) =
     (fst (updateLine [] setQuantity3 oneLineServer), Ok repricedCart) ∨
   ∃ e rest,
     taxLookupFails = Some e :: rest ∧
     updateLine taxLookupFails setQuantity3
                (fst (updateLine [] setQuantity3 oneLineServer)) =
       (fst (updateLine [] setQuantity3 oneLineServer), Err 400 e)).
Proof.
  assert (E : updateLine [] setQuantity3 oneLineServer =
              (fst (updateLine [] setQuantity3 oneLineServer), Ok repricedCart))
    by (vm_compute; reflexivity).
  split; [exact E|].
  exact (updateLine_same_patch_twice [] taxLookupFails setQuantity3 oneLineServer _
           repricedCart E eq_refl).
Defined.

Lemma discountLine_idempotent (pct : Q) (l : CartLine) :
  discountLine pct (discountLine pct l) = discountLine pct l.
Proof. reflexivity. Qed.

(** X8. The cart discount is idempotent: applying the same percent a second
    time gives the same server and the same answer as applying it once. *)
Theorem applyDiscount_twice_is_once (r : DiscountReq) (s : Server) :
  applyDiscount r (fst (applyDiscount r s)) = applyDiscount r s.
Proof.
  unfold applyDiscount at 2 3.
  destruct (carts s !! disc_cartId r) as [cart|] eqn:Hc.
  - simpl. unfold applyDiscount. simpl. rewrite lookup_insert_eq. simpl.
    rewrite insert_insert_eq, map_map.
    by rewrite (map_ext _ _ (discountLine_idempotent _)).
  - simpl. unfold applyDiscount. by rewrite Hc.
Qed.

(** ** Sums over the lines of a cart *)

Lemma fold_sum_shift (f : CartLine → Q) (ls : list CartLine) (a : Q) :
  (fold_left (fun s l => s + f l) ls a == a + sumOver f ls)%Q.
Proof.
  unfold sumOver. revert a. induction ls as [|l ls IH]; intros a; simpl.
  - ring.
  - rewrite IH, (IH (0 + f l)%Q). ring.
Qed.

Lemma sumOver_cons (f : CartLine → Q) (l : CartLine) (ls : list CartLine) :
  (sumOver f (l :: ls) == f l + sumOver f ls)%Q.
Proof. unfold sumOver at 1. simpl. rewrite fold_sum_shift. ring. Qed.

(** ** Payment methods of a settlement *)

Lemma find_is_Some {A} (f : A → bool) (l : list A) (x : A) :
  x ∈ l → f x = true → is_Some (find f l).
Proof.
  intros Hin Hf. destruct (find f l) eqn:E; [by eexists|].
  apply list_elem_of_In in Hin. by rewrite (find_none _ _ E x Hin) in Hf.
Qed.

Lemma ensurePaymentMethod_known (m : string) (w w' : World) o :
  (∃ pm, pm ∈ paymentMethods (w_db w) ∧ pmMatches m pm = true) →
  ensurePaymentMethod m w = (w', o) →
  w_db w' = w_db w.
Proof.
  intros (pm & Hin & Hm). unfold ensurePaymentMethod. rewrite bind_unfold.
  destruct (findFirstPaymentMethod m w) as [w1 o1] eqn:E1.
  unfold findFirstPaymentMethod in E1.
  apply prismaCall_cases in E1 as [_ [(e & -> & _ & Hd)|[-> Hd]]]; simpl in *.
  - by intros [= <- <-].
  - destruct (find_is_Some (pmMatches m) _ pm Hin Hm) as [pm' ->].
    by intros [= <- <-].
Qed.

Lemma createPayments_known (ps : list PaymentReq) : ∀ acc w w' o,
  Forall (knownMethod (w_db w)) ps →
  createPayments ps acc w = (w', o) →
  w_db w' = w_db w.
Proof.
  induction ps as [|p ps IH]; intros acc w w' o Hk; simpl.
  - by intros [= <- <-].
  - apply Forall_cons in Hk as [Hp Hps]. rewrite bind_unfold.
    destruct (ensurePaymentMethod (methodName p) w) as [w1 o1] eqn:E1.
    pose proof (ensurePaymentMethod_known _ _ _ _ Hp E1) as Hd.
    destruct o1 as [pm|e].
    + intros E2. rewrite <- Hd. eapply IH; [|exact E2]. by rewrite Hd.
    + by intros [= <- <-].
Qed.

Lemma settle_paymentMethods (rn : string) (r : CompleteReq) (cart : Cart)
    (w w' : World) o :
  Forall (knownMethod (w_db w)) (cmp_payments r) →
  settle rn r cart w = (w', o) →
  paymentMethods (w_db w') = paymentMethods (w_db w).
Proof.
  intros Hk. unfold settle. rewrite bind_unfold.
  destruct (createPayments (cmp_payments r) [] w) as [w1 o1] eqn:E1.
  pose proof (createPayments_known _ _ _ _ _ Hk E1) as Hd1.
  destruct o1 as [created|e]; [|intros [= <- <-]; by rewrite Hd1].
  rewrite bind_unfold.
  destruct (createReceipt _ w1) as [w2 o2] eqn:E2.
  apply createReceipt_runs in E2 as (_ & _ & Hpm2 & _).
  destruct o2 as [rc|e]; [|intros [= <- <-]; by rewrite Hpm2, Hd1].
  rewrite bind_unfold.
  destruct (stockLoop _ _ w2) as [w3 o3] eqn:E3.
  apply stockLoop_runs in E3 as (_ & _ & Hpm3 & _).
  destruct o3 as [[]|e]; intros [= <- <-]; by rewrite Hpm3, Hpm2, Hd1.
Qed.

(** X11. When every tender names a payment method of the store (by code or
    name, in any letter case), [complete] leaves the payment-method table
    as it is, in every outcome. *)
Theorem complete_known_methods_create_no_row
    (faults : list (option string)) (rn : string) (r : CompleteReq) (s : Server) :
  Forall (knownMethod (db s)) (cmp_payments r) →
  paymentMethods (db (fst (complete faults rn r s))) = paymentMethods (db s).
Proof.
  intros Hk. unfold complete.
  destruct (carts s !! cmp_cartId r) as [cart|]; [|done].
  destruct (length (lines cart) =? 0)%nat; [done|].
  destruct (settle _ _ _ _) as [w o] eqn:E.
  apply settle_paymentMethods in E; [|done].
  by destruct o.
Qed.

Lemma complete_known_methods_create_no_row_witness :
  Forall (knownMethod (db twoLineServer)) (cmp_payments cashTender) ∧
  paymentMethods (db (fst (complete secondStockWriteFails "R1" cashTender
                             twoLineServer))) =
    paymentMethods (db twoLineServer).
Proof.
  assert (Hk : Forall (knownMethod (db twoLineServer)) (cmp_payments cashTender)).
  { constructor; [|constructor].
    exists (mkPaymentMethod 1 (Some "CASH") "Cash"). split; [|reflexivity].
    apply list_elem_of_In. vm_compute. left. reflexivity. }
  split; [exact Hk|].
  exact (complete_known_methods_create_no_row secondStockWriteFails "R1"
           cashTender twoLineServer Hk).
Defined.

Lemma knownMethod_grows (d d' : Db) (p : PaymentReq) :
  (∃ extra, paymentMethods d' = paymentMethods d ++ extra) →
  knownMethod d p → knownMethod d' p.
Proof.
  intros [extra He] (pm & Hin & Hm). exists pm. split; [|done].
  rewrite He. apply elem_of_app. by left.
Qed.

Lemma recorded_known (d : Db) (ps : list PaymentReq) (pays : list Payment) :
  Forall2 (recorded d) ps pays → Forall (knownMethod d) ps.
Proof.
  induction 1 as [|p pay ps pays (_ & _ & pm & Hin & _ & Hm) _ IH];
    constructor; [by exists pm|done].
Qed.

(** X12. A payment-method row created for an unknown method is reused: after
    a settlement has succeeded, a later [complete] whose tenders use only
    method names of that settlement adds no payment-method row. *)
Theorem complete_reuses_created_methods
    (faults : list (option string)) (rn : string) (r : CompleteReq)
    (s s' : Server) (rc : Receipt)
    (faults' : list (option string)) (rn' : string) (r' : CompleteReq) :
  complete faults rn r s = (s', Ok rc) →
  (∀ p', p' ∈ cmp_payments r' →
         ∃ p, p ∈ cmp_payments r ∧ methodName p' = methodName p) →
  paymentMethods (db (fst (complete faults' rn' r' s'))) = paymentMethods (db s').
Proof.
  intros E Hsame.
  destruct (complete_Ok_cart faults rn r s s' rc E) as (cart & Hc & Hl).
  pose proof (complete_outcomes faults rn r s s' cart _ Hc Hl E) as Ho.
  apply SettleOutcome_Ok in Ho as (created & _ & _ & HF & _).
  apply recorded_known in HF.
  assert (Hk : Forall (knownMethod (db s')) (cmp_payments r')).
  { apply Forall_forall. intros p' Hp'.
    destruct (Hsame p' Hp') as (p & Hp & Hm).
    rewrite Forall_forall in HF. destruct (HF p Hp) as (pm & Hin & Hpm).
    exists pm. split; [done|]. by rewrite Hm. }
  unfold complete.
  destruct (carts s' !! cmp_cartId r') as [cart'|]; [|done].
  destruct (length (lines cart') =? 0)%nat; [done|].
  destruct (settle _ _ _ _) as [w o] eqn:E'.
  apply settle_paymentMethods in E'; [|done].
  by destruct o.
Qed.

Lemma complete_reuses_created_methods_witness :
  complete [] "R1" oddTender twoCartsServer = (oddSettled, Ok oddReceipt) ∧
  paymentMethods (db oddSettled) =
    paymentMethods (db twoCartsServer) ++
      [mkPaymentMethod 7 (Some "BITCOIN") "BITCOIN"] ∧
  (∃ rc2,
     snd (complete [] "R2" oddTenderAgain oddSettled) = Ok rc2 ∧
     payments rc2 = [mkPayment 40 None "SUCCESS" 7]) ∧
  paymentMethods (db (fst (complete [] "R2" oddTenderAgain oddSettled))) =
    paymentMethods (db oddSettled).
Proof.
  assert (E : complete [] "R1" oddTender twoCartsServer = (oddSettled, Ok oddReceipt))
    by (vm_compute; reflexivity).
  split; [exact E|]. split; [vm_compute; reflexivity|].
  split; [eexists; split; vm_compute; reflexivity|].
  apply (complete_reuses_created_methods [] "R1" oddTender twoCartsServer
           oddSettled oddReceipt [] "R2" oddTenderAgain E).
  intros p' Hp'. exists (mkPaymentReq (Some "bitcoin") (JNumber (-5)) None).
  split; [by left|].
  apply list_elem_of_singleton in Hp'. by subst p'.
Defined.

(** ** The method name of a tender *)

Lemma upperAscii_idempotent (c : ascii) : upperAscii (upperAscii c) = upperAscii c.
Proof. destruct c as [[] [] [] [] [] [] [] []]; reflexivity. Qed.

Lemma toUpperCase_idempotent (s : string) : toUpperCase (toUpperCase s) = toUpperCase s.
Proof.
  induction s as [|c s IH]; [done|]. simpl. by rewrite upperAscii_idempotent, IH.
Qed.

Lemma toUpperCase_nonempty (s : string) : s ≠ "" → toUpperCase s ≠ "".
Proof. by destruct s. Qed.

(** X13. The name under which the method of a tender is looked up is CASH
    when the tender has no method or an empty one, and the method in upper
    case otherwise; it is never empty, is in upper case, and normalising it
    again changes nothing. *)
Theorem methodName_is_normalised (p : PaymentReq) :
  (method p = None ∨ method p = Some "" → methodName p = "CASH") ∧
  (∀ m, method p = Some m → m ≠ "" → methodName p = toUpperCase m) ∧
  methodName p ≠ "" ∧
  toUpperCase (methodName p) = methodName p ∧
  methodName (mkPaymentReq (Some (methodName p)) (p_amount p) (p_reference p))
    = methodName p.
Proof.
  split.
  { unfold methodName. by intros [-> | ->]. }
  split.
  { intros m Hm Hne. unfold methodName. rewrite Hm. simpl.
    by destruct (String.eqb_spec (toUpperCase m) "") as [E|E];
      [destruct (toUpperCase_nonempty m Hne E)|]. }
  assert (H : methodName p ≠ "" ∧ toUpperCase (methodName p) = methodName p).
  { unfold methodName.
    destruct (String.eqb_spec (toUpperCase (default "" (method p))) "") as [E|E].
    - by split.
    - split; [done|]. apply toUpperCase_idempotent. }
  destruct H as [Hne Hup]. split_and!; try done.
  unfold methodName at 1. simpl. rewrite Hup.
  by destruct (String.eqb_spec (methodName p) "").
Qed.

(** ** What a settlement leaves in the database *)

(** Every run of [complete] only appends rows. *)
Lemma complete_appends (faults : list (option string)) (rn : string)
    (r : CompleteReq) (s : Server) :
  ∃ newMethods newReceipts newStock,
    items (db (fst (complete faults rn r s))) = items (db s) ∧
    barcodes (db (fst (complete faults rn r s))) = barcodes (db s) ∧
    taxes (db (fst (complete faults rn r s))) = taxes (db s) ∧
    paymentMethods (db (fst (complete faults rn r s))) =
      paymentMethods (db s) ++ newMethods ∧
    receipts (db (fst (complete faults rn r s))) = receipts (db s) ++ newReceipts ∧
    stockLedger (db (fst (complete faults rn r s))) = stockLedger (db s) ++ newStock ∧
    length newReceipts ≤ 1 ∧
    Forall (fun rc => receiptNumber rc = rn ∧ receiptStatus rc = "COMPLETED")
           newReceipts ∧
    Forall (fun e => (sl_quantity e <= 0)%Q ∧ sl_type e = "SALE" ∧
                     sl_reference e = rn ∧ (unitCost e == 0)%Q) newStock.
Proof.
  unfold complete.
  destruct (carts s !! cmp_cartId r) as [cart|].
  2:{ exists [], [], []. rewrite !app_nil_r. simpl. split_and!; try done; lia. }
  destruct (length (lines cart) =? 0)%nat.
  { exists [], [], []. rewrite !app_nil_r. simpl. split_and!; try done; lia. }
  destruct (settle rn r cart (mkWorld (db s) faults)) as [w o] eqn:E.
  apply settle_outcomes in E as [[[Hi Hb Ht [extra Hpm]] _ _] Hcases].
  simpl in *.
  assert (Hdb : ∀ x : Server * Response Receipt,
            db (fst x) = w_db w →
            ∃ newMethods newReceipts newStock,
              items (db (fst x)) = items (db s) ∧
              barcodes (db (fst x)) = barcodes (db s) ∧
              taxes (db (fst x)) = taxes (db s) ∧
              paymentMethods (db (fst x)) = paymentMethods (db s) ++ newMethods ∧
              receipts (db (fst x)) = receipts (db s) ++ newReceipts ∧
              stockLedger (db (fst x)) = stockLedger (db s) ++ newStock ∧
              length newReceipts ≤ 1 ∧
              Forall (fun rc => receiptNumber rc = rn ∧ receiptStatus rc = "COMPLETED")
                     newReceipts ∧
              Forall (fun e => (sl_quantity e <= 0)%Q ∧ sl_type e = "SALE" ∧
                               sl_reference e = rn ∧ (unitCost e == 0)%Q) newStock).
  { intros x ->.
    destruct Hcases as [(e & _ & Hrc & Hst)|(created & k & _ & Hrc & _ & Hst & _)].
    - exists extra, [], []. rewrite !app_nil_r. split_and!; try done. simpl; lia.
    - exists extra, [receiptOf rn r cart created],
        (map (stockEntryOf rn) (take k (lines cart))).
      split_and!; try done.
      + by repeat constructor.
      + apply Forall_map, Forall_forall. intros l _. simpl. split_and!; try done.
        rewrite <- (Qopp_opp 0). apply Qopp_le_compat. apply Qabs_nonneg. }
  destruct o as [rc|e]; by apply Hdb.
Qed.

(** X14. [complete] only appends rows: in every outcome items, barcodes and
    taxes are as before, the payment methods and the stock ledger of before
    are a prefix of those after, and at most one receipt is added, with the
    receipt number of the request and status COMPLETED. *)
Theorem complete_only_appends_rows (faults : list (option string)) (rn : string)
    (r : CompleteReq) (s : Server) :
  items (db (fst (complete faults rn r s))) = items (db s) ∧
  barcodes (db (fst (complete faults rn r s))) = barcodes (db s) ∧
  taxes (db (fst (complete faults rn r s))) = taxes (db s) ∧
  paymentMethods (db s) `prefix_of` paymentMethods (db (fst (complete faults rn r s))) ∧
  stockLedger (db s) `prefix_of` stockLedger (db (fst (complete faults rn r s))) ∧
  ∃ newReceipts,
    receipts (db (fst (complete faults rn r s))) = receipts (db s) ++ newReceipts ∧
    length newReceipts ≤ 1 ∧
    Forall (fun rc => receiptNumber rc = rn ∧ receiptStatus rc = "COMPLETED")
           newReceipts.
Proof.
  destruct (complete_appends faults rn r s)
    as (nm & nr & ns & Hi & Hb & Ht & Hpm & Hrc & Hst & Hlen & Hnr & _).
  split_and!; try done.
  - rewrite Hpm. by eexists.
  - rewrite Hst. by eexists.
  - by exists nr.
Qed.

(** X15. Stock is only ever taken out: every stock entry that [complete] adds,
    in every outcome, has a quantity that is not positive, type SALE, unit
    cost 0 and the receipt number as reference. *)
Theorem complete_posts_only_sales (faults : list (option string)) (rn : string)
    (r : CompleteReq) (s : Server) :
  ∃ newStock,
    stockLedger (db (fst (complete faults rn r s))) = stockLedger (db s) ++ newStock ∧
    Forall (fun e => (sl_quantity e <= 0)%Q ∧ sl_type e = "SALE" ∧
                     sl_reference e = rn ∧ (unitCost e == 0)%Q) newStock.
Proof.
  destruct (complete_appends faults rn r s)
    as (nm & nr & ns & _ & _ & _ & _ & _ & Hst & _ & _ & Hns).
  by exists ns.
Qed.

(** ** Retrying a failed settlement *)

(** X16. A retry after a stock-write failure issues a second receipt: when
    [complete] has answered with an error after writing the receipt, the
    cart is still open, and a second [complete] in which nothing throws
    writes another receipt with the same lines and total, and a full set of
    stock entries on top of those the first attempt left. *)
Theorem retry_after_stock_failure_duplicates_receipt
    (faults : list (option string)) (rn rn' : string) (r : CompleteReq)
    (s s1 : Server) (cart : Cart) (e : string) (rc1 : Receipt) :
  carts s !! cmp_cartId r = Some cart →
  complete faults rn r s = (s1, Err 400 e) →
  receipts (db s1) = receipts (db s) ++ [rc1] →
  ∃ s2 rc2 k,
    complete [] rn' r s1 = (s2, Ok rc2) ∧
    receipts (db s2) = receipts (db s) ++ [rc1; rc2] ∧
    receiptLines rc2 = receiptLines rc1 ∧
    totalAmount rc2 = totalAmount rc1 ∧
    k < length (lines cart) ∧
    length (stockLedger (db s2)) =
      length (stockLedger (db s)) + k + length (lines cart).
Proof.
  intros Hc E Hrc.
  assert (Hl : lines cart ≠ []).
  { intros Hnil. rewrite (complete_empty_cart faults rn r s cart Hc Hnil) in E.
    injection E as <- <-. apply (f_equal length) in Hrc.
    rewrite length_app in Hrc. simpl in Hrc. lia. }
  pose proof (complete_outcomes faults rn r s s1 cart _ Hc Hl E) as Ho.
  apply SettleOutcome_Err in Ho
    as (_ & _ & Hcarts & [[Hrc0 _]|(created & k & _ & Hrc1 & Hk & Hst1)]).
  { rewrite Hrc0 in Hrc. apply (f_equal length) in Hrc.
    rewrite length_app in Hrc. simpl in Hrc. lia. }
  rewrite Hrc1 in Hrc. apply app_inv_head in Hrc. injection Hrc as <-.
  assert (Hc1 : carts s1 !! cmp_cartId r = Some cart) by by rewrite Hcarts.
  destruct (complete_no_faults [] rn' r s1 cart Hc1 Hl) as (s2 & created2 & E2 & Ho2).
  { intros e' He'. inversion He'. }
  apply SettleOutcome_Ok in Ho2 as (created' & Heq & _ & _ & Hrc2 & Hst2).
  exists s2, (receiptOf rn' r cart created2), k.
  split_and!; try done.
  - rewrite Hrc2, Hrc1, <- app_assoc. done.
  - rewrite Hst2, Hst1, !length_app, !length_map, length_take. lia.
Qed.

Lemma retry_after_stock_failure_duplicates_receipt_witness :
  carts twoLineServer !! cmp_cartId cashTender = Some twoLineCart ∧
  complete secondStockWriteFails "R1" cashTender twoLineServer =
    (fst stockFaultRun, Err 400 "SQLITE_BUSY") ∧
  receipts (db (fst stockFaultRun)) = receipts (db twoLineServer) ++ [settledReceipt] ∧
  ∃ s2 rc2 k,
    complete [] "R2" cashTender (fst stockFaultRun) = (s2, Ok rc2) ∧
    receipts (db s2) = receipts (db twoLineServer) ++ [settledReceipt; rc2] ∧
    receiptLines rc2 = receiptLines settledReceipt ∧
    totalAmount rc2 = totalAmount settledReceipt ∧
    k < length (lines twoLineCart) ∧
    length (stockLedger (db s2)) =
      length (stockLedger (db twoLineServer)) + k + length (lines twoLineCart).
Proof.
  assert (Hc : carts twoLineServer !! cmp_cartId cashTender = Some twoLineCart)
    by (vm_compute; reflexivity).
  assert (E : complete secondStockWriteFails "R1" cashTender twoLineServer =
              (fst stockFaultRun, Err 400 "SQLITE_BUSY")) by (vm_compute; reflexivity).
  assert (Hrc : receipts (db (fst stockFaultRun))
                = receipts (db twoLineServer) ++ [settledReceipt])
    by (vm_compute; reflexivity).
  split_and!; [exact Hc|exact E|exact Hrc|].
  exact (retry_after_stock_failure_duplicates_receipt secondStockWriteFails "R1" "R2"
           cashTender twoLineServer (fst stockFaultRun) twoLineCart "SQLITE_BUSY"
           settledReceipt Hc E Hrc).
Defined.

(** ** Looking a receipt up *)

Lemma find_app_None {A} (f : A → bool) (l1 l2 : list A) :
  find f l1 = None → find f (l1 ++ l2) = find f l2.
Proof.
  induction l1 as [|a l1 IH]; simpl; [done|].
  destruct (f a); [done|]. exact IH.
Qed.

Lemma find_app_Some {A} (f : A → bool) (l1 l2 : list A) (x : A) :
  find f l1 = Some x → find f (l1 ++ l2) = Some x.
Proof.
  induction l1 as [|a l1 IH]; simpl; [done|].
  destruct (f a); [done|]. exact IH.
Qed.

(** X17. A settled receipt can be read back by its number when no earlier
    receipt had that number; receipts that could be read before the
    settlement read the same afterwards, and any other number that was not
    found is still not found. *)
Theorem getReceipt_after_complete
    (faults : list (option string)) (rn : string) (r : CompleteReq)
    (s s' : Server) (rc : Receipt) :
  complete faults rn r s = (s', Ok rc) →
  (getReceipt rn (db s) = Err 404 "Receipt not found" →
     getReceipt rn (db s') = Ok rc) ∧
  (∀ n old, getReceipt n (db s) = Ok old → getReceipt n (db s') = Ok old) ∧
  (∀ n, n ≠ rn → getReceipt n (db s) = Err 404 "Receipt not found" →
        getReceipt n (db s') = Err 404 "Receipt not found").
Proof.
  intros E.
  destruct (complete_Ok_cart faults rn r s s' rc E) as (cart & Hc & Hl).
  pose proof (complete_outcomes faults rn r s s' cart _ Hc Hl E) as Ho.
  apply SettleOutcome_Ok in Ho as (created & Heq & _ & _ & Hrc & _).
  assert (Hrn : receiptNumber rc = rn) by (by rewrite Heq).
  unfold getReceipt. rewrite Hrc. split_and!.
  - destruct (find _ (receipts (db s))) eqn:Ef; [done|]. intros _.
    rewrite (find_app_None _ _ _ Ef). simpl. rewrite Hrn.
    by rewrite String.eqb_refl.
  - intros n old. destruct (find _ (receipts (db s))) eqn:Ef; [|done].
    intros [= ->]. by rewrite (find_app_Some _ _ _ _ Ef).
  - intros n Hn. destruct (find _ (receipts (db s))) eqn:Ef; [done|]. intros _.
    rewrite (find_app_None _ _ _ Ef). simpl. rewrite Hrn.
    destruct (String.eqb_spec rn n); [by subst|done].
Qed.

Lemma getReceipt_after_complete_witness :
  complete [] "R1" cashTender twoLineServer = (settledTwoLine, Ok settledReceipt) ∧
  getReceipt "R1" (db twoLineServer) = Err 404 "Receipt not found" ∧
  getReceipt "R1" (db settledTwoLine) = Ok settledReceipt.
Proof.
  assert (E : complete [] "R1" cashTender twoLineServer
              = (settledTwoLine, Ok settledReceipt)) by (vm_compute; reflexivity).
  assert (Hn : getReceipt "R1" (db twoLineServer) = Err 404 "Receipt not found")
    by (vm_compute; reflexivity).
  split_and!; [exact E|exact Hn|].
  exact (proj1 (getReceipt_after_complete [] "R1" cashTender twoLineServer
                  settledTwoLine settledReceipt E) Hn).
Defined.

(** ** The daily Z report *)






(** ** Text helpers of the plain-text receipt *)

Lemma length_append (s t : string) :
  String.length (s +:+ t) = String.length s + String.length t.
Proof. induction s as [|a s IH]; simpl; [done|]. by rewrite IH. Qed.

Lemma length_strRepeat (s : string) (n : nat) :
  String.length (strRepeat s n) = n * String.length s.
Proof.
  induction n as [|n IH]; simpl; [done|]. rewrite length_append, IH. lia.
Qed.

Lemma length_substring0 (n : nat) (s : string) :
  String.length (String.substring 0 n s) = Nat.min n (String.length s).
Proof.
  revert s. induction n as [|n IH]; intros s.
  - by destruct s.
  - destruct s as [|a s]; simpl; [done|]. by rewrite IH.
Qed.

Lemma substring0_prefix (n : nat) (s : string) :
  ∃ t, s = String.substring 0 n s +:+ t.
Proof.
  revert s. induction n as [|n IH]; intros s.
  - exists s. by destruct s.
  - destruct s as [|a s]; simpl; [by exists ""|].
    destruct (IH s) as [t Ht]. exists t.
    change (String a s = String a (String.substring 0 n s +:+ t)). by f_equal.
Qed.

(** X20. [pad] always gives a row of exactly 42 characters: a text that fits
    is kept and filled up with spaces, as many as it falls short of 42; a
    longer one is cut, and the row is its first 42 characters. *)
Theorem pad_has_the_width (s : string) :
  String.length (PlainReceipt.pad s) = PlainReceipt.W ∧
  (String.length s ≤ PlainReceipt.W →
   PlainReceipt.pad s = s +:+ strRepeat " " (PlainReceipt.W - String.length s)) ∧
  (PlainReceipt.W < String.length s →
   PlainReceipt.pad s = String.substring 0 PlainReceipt.W s ∧
   ∃ cut, s = PlainReceipt.pad s +:+ cut).
Proof.
  unfold PlainReceipt.pad.
  destruct (Nat.ltb_spec PlainReceipt.W (String.length s)) as [H|H].
  - split_and!.
    + rewrite length_substring0. lia.
    + intros. lia.
    + intros _. split; [done|]. apply substring0_prefix.
  - split_and!.
    + rewrite length_append, length_strRepeat. simpl. lia.
    + done.
    + intros. lia.
Qed.

(** X21. [lr] keeps both texts with at least one space between; the row is
    exactly 42 characters when the texts fit and longer when they do not:
    nothing is cut. *)
Theorem lr_keeps_both_texts (L R : string) :
  (∃ gap, PlainReceipt.lr L R = L +:+ strRepeat " " gap +:+ R ∧ 1 ≤ gap) ∧
  String.length (PlainReceipt.lr L R) =
    Nat.max PlainReceipt.W (String.length L + 1 + String.length R) ∧
  (String.length L + String.length R < PlainReceipt.W →
   String.length (PlainReceipt.lr L R) = PlainReceipt.W).
Proof.
  unfold PlainReceipt.lr. split_and!.
  - eexists. split; [reflexivity|]. lia.
  - rewrite !length_append, length_strRepeat. simpl String.length. lia.
  - intros H. rewrite !length_append, length_strRepeat. simpl String.length. lia.
Qed.

(** ** Escaping *)

Lemma append_cons (a : ascii) (s t : string) :
  String a s +:+ t = String a (s +:+ t).
Proof. reflexivity. Qed.

Lemma append_nil_l (s : string) : "" +:+ s = s.
Proof. reflexivity. Qed.

Lemma append_assoc (s t u : string) : (s +:+ t) +:+ u = s +:+ (t +:+ u).
Proof.
  induction s as [|a s IH]; [done|]. by rewrite !append_cons, IH.
Qed.

Lemma replaceAll_append (c : ascii) (b s t : string) :
  replaceAll c b (s +:+ t) = replaceAll c b s +:+ replaceAll c b t.
Proof.
  induction s as [|a s IH]; [done|].
  rewrite append_cons. simpl. destruct (Ascii.eqb a c); rewrite IH.
  - by rewrite append_assoc.
  - by rewrite append_cons.
Qed.

Lemma replaceAll_cons (c : ascii) (b : string) (a : ascii) (s : string) :
  replaceAll c b (String a s) =
  if Ascii.eqb a c then b +:+ replaceAll c b s else String a (replaceAll c b s).
Proof. reflexivity. Qed.

Lemma esc_is_escMap (s : string) : esc (Some s) = escMap s.
Proof.
  unfold esc. simpl default. induction s as [|a s IH]; [done|].
  simpl escMap. rewrite <- IH. unfold escChar.
  rewrite (replaceAll_cons "&").
  destruct (Ascii.eqb_spec a "&") as [->|Hamp].
  { by rewrite !replaceAll_append. }
  rewrite (replaceAll_cons "<").
  destruct (Ascii.eqb_spec a "<") as [->|Hlt].
  { by rewrite !replaceAll_append. }
  rewrite (replaceAll_cons ">").
  destruct (Ascii.eqb_spec a ">") as [->|Hgt]; reflexivity.
Qed.

Lemma occurs_append (c : ascii) (s t : string) :
  occurs c (s +:+ t) = occurs c s || occurs c t.
Proof.
  induction s as [|a s IH]; [done|].
  rewrite append_cons. simpl. by rewrite IH, orb_assoc.
Qed.

Lemma escChar_no_angle (a : ascii) :
  occurs "<" (escChar a) = false ∧ occurs ">" (escChar a) = false.
Proof.
  unfold escChar.
  destruct (Ascii.eqb_spec a "&"); [done|].
  destruct (Ascii.eqb_spec a "<"); [done|].
  destruct (Ascii.eqb_spec a ">"); [done|].
  simpl. rewrite !orb_false_r. split; by apply Ascii.eqb_neq.
Qed.

(** X22. Escaped text holds no angle bracket, and a text without [&], [<] and
    [>] is left as it is. *)
Theorem esc_leaves_no_angle_bracket (s : option string) :
  occurs "<" (esc s) = false ∧
  occurs ">" (esc s) = false ∧
  (occurs "&" (default "" s) = false → occurs "<" (default "" s) = false →
   occurs ">" (default "" s) = false → esc s = default "" s).
Proof.
  assert (H : ∀ t, occurs "<" (escMap t) = false ∧ occurs ">" (escMap t) = false ∧
                   (occurs "&" t = false → occurs "<" t = false →
                    occurs ">" t = false → escMap t = t)).
  { induction t as [|a t (IH1 & IH2 & IH3)]; [done|].
    simpl escMap. rewrite !occurs_append.
    destruct (escChar_no_angle a) as [-> ->]. rewrite IH1, IH2.
    split_and!; try done.
    simpl. intros H1 H2 H3.
    apply orb_false_elim in H1 as [Ha1 Ht1], H2 as [Ha2 Ht2], H3 as [Ha3 Ht3].
    unfold escChar. rewrite Ha1, Ha2, Ha3. rewrite append_cons.
    by rewrite (IH3 Ht1 Ht2 Ht3). }
  destruct s as [t|].
  - rewrite esc_is_escMap. apply H.
  - done.
Qed.

Lemma unesc_escMap (s : string) : unesc (escMap s) = s.
Proof.
  induction s as [|a s IH]; [done|].
  simpl escMap. unfold escChar.
  destruct (Ascii.eqb_spec a "&") as [->|Hamp].
  { rewrite !append_cons, append_nil_l. simpl. by rewrite IH. }
  destruct (Ascii.eqb_spec a "<") as [->|Hlt].
  { rewrite !append_cons, append_nil_l. simpl. by rewrite IH. }
  destruct (Ascii.eqb_spec a ">") as [->|Hgt].
  { rewrite !append_cons, append_nil_l. simpl. by rewrite IH. }
  rewrite append_cons, append_nil_l. simpl.
  assert (Ascii.eqb a "&" = false) as -> by by apply Ascii.eqb_neq.
  by rewrite IH.
Qed.

(** X23. Escaping loses nothing: two texts with the same escaped form are the
    same text. *)
Theorem esc_is_injective (s t : string) : esc (Some s) = esc (Some t) → s = t.
Proof.
  rewrite !esc_is_escMap. intros H.
  by rewrite <- (unesc_escMap s), <- (unesc_escMap t), H.
Qed.

Lemma esc_is_injective_witness :
  esc (Some "a<b & c") = esc (Some "a<b & c") ∧ "a<b & c" = "a<b & c".
Proof.
  assert (H : esc (Some "a<b & c") = esc (Some "a<b & c")) by reflexivity.
  split; [exact H|].
  exact (esc_is_injective "a<b & c" "a<b & c" H).
Defined.

(** ** Settings *)











(** X25. A PUT of settings is not atomic: when the upsert of entry [n] throws,
    the answer is a 400 with its message and the table is the one left by
    the first [n] entries. *)
Theorem settings_put_is_not_atomic (n : nat) (e : string)
    (rest : list (option string)) (entries : list (string * string))
    (rows : list SettingRow) :
  n < length entries →
  putSettings (replicate n None ++ Some e :: rest) entries rows =
    (fst (putSettings [] (take n entries) rows), Err 400 e).
Proof.
  revert entries rows. induction n as [|n IH]; intros entries rows Hn.
  - destruct entries as [|[k v] entries]; simpl in *; [lia|done].
  - destruct entries as [|[k v] entries]; simpl in *; [lia|].
    apply IH. lia.
Qed.

Lemma settings_put_is_not_atomic_witness :
  1 < length settingsBody ∧
  putSettings (replicate 1 None ++ Some "SQLITE_BUSY" :: []) settingsBody seedSettings =
    (fst (putSettings [] (take 1 settingsBody) seedSettings), Err 400 "SQLITE_BUSY").
Proof.
  assert (Hn : 1 < length settingsBody) by (simpl; lia).
  split; [exact Hn|].
  exact (settings_put_is_not_atomic 1 "SQLITE_BUSY" [] settingsBody seedSettings Hn).
Defined.

(** ** The cashier page *)

Lemma round2_comp (x y : Q) : (x == y)%Q → (round2 x == round2 y)%Q.
Proof.
  intros Hxy. unfold round2.
  assert (H : (x * 100 + (1 # 2) == y * 100 + (1 # 2))%Q) by by rewrite Hxy.
  by rewrite (Qfloor_comp _ _ H).
Qed.

(** Rounding to two decimals moves a number by at most half a hundredth. *)
Lemma round2_close (x : Q) :
  (x - (1 # 200) < round2 x)%Q ∧ (round2 x <= x + (1 # 200))%Q.
Proof.
  unfold round2. set (y := (x * 100 + (1 # 2))%Q).
  pose proof (Qfloor_le y) as Hle. pose proof (Qlt_floor y) as Hlt.
  rewrite inject_Z_plus in Hlt. change (inject_Z 1) with 1%Q in Hlt.
  set (f := inject_Z (Qfloor y)) in *. unfold y in *. clearbody f. clear y.
  unfold Qdiv. change (/ 100)%Q with (1 # 100)%Q.
  split; lra.
Qed.

Lemma Qmax_case (x y : Q) :
  ((x <= y)%Q ∧ (Qmax x y == y)%Q) ∨ ((y <= x)%Q ∧ (Qmax x y == x)%Q).
Proof.
  destruct (Qlt_le_dec y x) as [H|H].
  - right. split; [by apply Qlt_le_weak|]. apply Q.max_l. by apply Qlt_le_weak.
  - left. split; [done|]. by apply Q.max_r.
Qed.

Lemma clamp2_nonneg (n : Q) : (0 <= Cashier.clamp2 n)%Q.
Proof. unfold Cashier.clamp2. apply Q.le_max_l. Qed.

Lemma clamp2_comp (x y : Q) : (x == y)%Q → (Cashier.clamp2 x == Cashier.clamp2 y)%Q.
Proof.
  intros H. unfold Cashier.clamp2. by rewrite (round2_comp x y H).
Qed.

Lemma clamp2_close (x : Q) :
  (0 <= x)%Q →
  (x - (1 # 200) < Cashier.clamp2 x)%Q ∧ (Cashier.clamp2 x <= x + (1 # 200))%Q.
Proof.
  intros Hx. unfold Cashier.clamp2. destruct (round2_close x) as [H1 H2].
  destruct (Qmax_case 0 (round2 x)) as [[Hc ->]|[Hc ->]]; split; lra.
Qed.

(** X26. Due and change on the cashier page are never negative and never both
    positive; due is 0 once the tenders cover the total, and otherwise is
    within half a hundredth of the amount still missing. *)
Theorem due_and_change (c : Cart) (tenders : list PaymentReq) :
  (0 <= Cashier.due c tenders)%Q ∧
  (0 <= Cashier.change c tenders)%Q ∧
  ((Cashier.due c tenders == 0)%Q ∨ (Cashier.change c tenders == 0)%Q) ∧
  ((grandTotal c <= paidTotal tenders)%Q → (Cashier.due c tenders == 0)%Q) ∧
  ((paidTotal tenders <= grandTotal c)%Q →
   (grandTotal c - paidTotal tenders - (1 # 200) < Cashier.due c tenders)%Q ∧
   (Cashier.due c tenders <= grandTotal c - paidTotal tenders + (1 # 200))%Q).
Proof.
  unfold Cashier.due, Cashier.change.
  set (g := grandTotal c). set (p := paidTotal tenders).
  assert (Hdue0 : (g <= p)%Q → (Cashier.clamp2 (Qmax 0 (g - p)) == 0)%Q).
  { intros H. rewrite (clamp2_comp _ 0); [reflexivity|].
    apply Q.max_l. lra. }
  assert (Hch0 : (p <= g)%Q → (Cashier.clamp2 (Qmax 0 (p - g)) == 0)%Q).
  { intros H. rewrite (clamp2_comp _ 0); [reflexivity|].
    apply Q.max_l. lra. }
  split_and!; try apply clamp2_nonneg; try done.
  - destruct (Qlt_le_dec p g) as [H|H].
    + right. apply Hch0. lra.
    + left. by apply Hdue0.
  - intros H.
    assert (Hm : (Qmax 0 (g - p) == g - p)%Q) by (apply Q.max_r; lra).
    rewrite (clamp2_comp _ _ Hm). apply clamp2_close. lra.
Qed.

Lemma clamp2_wholeCents (n : Q) :
  ∃ cents : Z, (0 ≤ cents)%Z ∧ (Cashier.clamp2 n == inject_Z cents / 100)%Q.
Proof.
  unfold Cashier.clamp2.
  destruct (Qmax_case 0 (round2 n)) as [[Hc He]|[Hc He]].
  - exists (Qfloor (n * 100 + (1 # 2))). split; [|exact He].
    unfold round2 in Hc.
    assert (H : (0 <= inject_Z (Qfloor (n * 100 + (1 # 2))))%Q).
    { set (f := inject_Z (Qfloor (n * 100 + (1 # 2)))) in *. clearbody f.
      unfold Qdiv in Hc. change (/ 100)%Q with (1 # 100)%Q in Hc. lra. }
    change 0%Q with (inject_Z 0) in H. by rewrite <- Zle_Qle in H.
  - exists 0%Z. split; [done|]. etrans; [exact He|reflexivity].
Qed.

Lemma filter_index_keeps_all (l : list PaymentReq) : ∀ (g : nat → nat) (k : nat),
  (∀ j, g j ≠ k) →
  map snd (filter (fun p => fst p ≠ k) (imap (fun j x => (g j, x)) l)) = l.
Proof.
  induction l as [|x l IH]; intros g k Hg; [done|].
  rewrite imap_cons, filter_cons. cbn [fst].
  rewrite decide_True by apply Hg. cbn [map snd]. f_equal.
  rewrite (imap_ext _ (fun j y => (g (S j), y))) by done.
  apply (IH (fun j => g (S j))). intros j. apply Hg.
Qed.

Lemma removeTender_delete_go (l : list PaymentReq) : ∀ (i n : nat),
  map snd (filter (fun p => fst p ≠ n + i) (imap (fun j x => (n + j, x)) l)) =
  delete i l.
Proof.
  induction l as [|x l IH]; intros i n; [done|].
  rewrite imap_cons, filter_cons. cbn [fst].
  destruct i as [|i].
  - rewrite decide_False by lia. cbn [delete list_delete].
    rewrite (imap_ext _ (fun j y => (n + S j, y))) by done.
    apply (filter_index_keeps_all l (fun j => n + S j)). intros j. lia.
  - rewrite decide_True by lia. cbn [map snd delete list_delete]. f_equal.
    rewrite (imap_ext _ (fun j y => (S n + j, y))).
    + replace (n + S i) with (S n + i) by lia. apply IH.
    + intros j y _. cbn. f_equal. lia.
Qed.

(** X27. [removeTender] removes the tender at the index and no other; an
    index past the end changes nothing. *)
Theorem removeTender_removes_one (i : nat) (tenders : list PaymentReq) :
  Cashier.removeTender i tenders = delete i tenders ∧
  (length tenders ≤ i → Cashier.removeTender i tenders = tenders).
Proof.
  assert (H : Cashier.removeTender i tenders = delete i tenders).
  { unfold Cashier.removeTender. exact (removeTender_delete_go tenders i 0). }
  split; [done|]. intros Hi. rewrite H. clear H.
  revert i Hi. induction tenders as [|t ts IH]; intros i Hi; [by destruct i|].
  destruct i; simpl in *; [lia|]. f_equal. apply IH. lia.
Qed.

Lemma rejected_iff (a : jsnum) :
  Cashier.rejected a = true ↔ a = NaN ∨ ∃ q, a = Fin q ∧ (q <= 0)%Q.
Proof.
  destruct a as [q|]; simpl; [|by split; [left|]].
  split.
  - intros H. right. exists q. split; [done|].
    apply orb_true_iff in H as [H|H].
    + apply Qeq_bool_iff in H. rewrite H. apply Qle_refl.
    + by apply Qle_bool_iff.
  - intros [H|(q' & [= <-] & H)]; [done|].
    apply orb_true_iff. right. by apply Qle_bool_iff.
Qed.

(** X28. The payment drawer only ever holds amounts that are not negative and
    are whole hundredths: [addCash], [addUpi] and [removeTender] keep it so.
    An amount that is 0, negative or not a number adds no tender; an amount
    above 0 adds one tender, of that amount rounded to hundredths. *)
Theorem drawer_holds_whole_cents (tenders : list PaymentReq) :
  Forall wholeCents tenders →
  (∀ a, Forall wholeCents (Cashier.addCash a tenders)) ∧
  (∀ ref a, Forall wholeCents (Cashier.addUpi ref a tenders)) ∧
  (∀ i, Forall wholeCents (Cashier.removeTender i tenders)) ∧
  (∀ a, a = NaN ∨ (∃ q, a = Fin q ∧ (q <= 0)%Q) →
        Cashier.addCash a tenders = tenders ∧
        ∀ ref, Cashier.addUpi ref a tenders = tenders) ∧
  (∀ q, (0 < q)%Q →
        Cashier.addCash (Fin q) tenders =
          tenders ++ [mkPaymentReq (Some "CASH") (JNumber (Cashier.clamp2 q)) None] ∧
        ∀ ref, Cashier.addUpi ref (Fin q) tenders =
          tenders ++ [mkPaymentReq (Some "UPI") (JNumber (Cashier.clamp2 q))
                                   (Some ref)]).
Proof.
  intros H. split_and!.
  - intros a. unfold Cashier.addCash. destruct (Cashier.rejected a); [done|].
    apply Forall_app. split; [done|]. constructor; [|done]. apply clamp2_wholeCents.
  - intros ref a. unfold Cashier.addUpi. destruct (Cashier.rejected a); [done|].
    apply Forall_app. split; [done|]. constructor; [|done]. apply clamp2_wholeCents.
  - intros i. unfold Cashier.removeTender.
    change (Forall wholeCents
              (map snd (filter (fun p => fst p ≠ 0 + i)
                               (imap (fun j x => (0 + j, x)) tenders)))).
    rewrite (removeTender_delete_go tenders i 0). by apply Forall_delete.
  - intros a Ha. apply rejected_iff in Ha.
    unfold Cashier.addCash, Cashier.addUpi. by rewrite Ha.
  - intros q Hq.
    assert (Ha : Cashier.rejected (Fin q) = false).
    { destruct (Cashier.rejected (Fin q)) eqn:E; [|done].
      apply rejected_iff in E as [E|(q' & [= <-] & E)]; [done|].
      destruct (Qlt_not_le _ _ Hq E). }
    unfold Cashier.addCash, Cashier.addUpi. by rewrite Ha.
Qed.

Lemma drawer_holds_whole_cents_witness :
  Forall wholeCents fiftyCash ∧
  (∀ a, Forall wholeCents (Cashier.addCash a fiftyCash)) ∧
  (∀ ref a, Forall wholeCents (Cashier.addUpi ref a fiftyCash)) ∧
  (∀ i, Forall wholeCents (Cashier.removeTender i fiftyCash)) ∧
  (∀ a, a = NaN ∨ (∃ q, a = Fin q ∧ (q <= 0)%Q) →
        Cashier.addCash a fiftyCash = fiftyCash ∧
        ∀ ref, Cashier.addUpi ref a fiftyCash = fiftyCash) ∧
  (∀ q, (0 < q)%Q →
        Cashier.addCash (Fin q) fiftyCash =
          fiftyCash ++ [mkPaymentReq (Some "CASH") (JNumber (Cashier.clamp2 q)) None] ∧
        ∀ ref, Cashier.addUpi ref (Fin q) fiftyCash =
          fiftyCash ++ [mkPaymentReq (Some "UPI") (JNumber (Cashier.clamp2 q))
                                     (Some ref)]).
Proof.
  assert (H : Forall wholeCents fiftyCash).
  { constructor; [|constructor]. exists 5000%Z. split; [lia|].
    vm_compute. reflexivity. }
  split; [exact H|].
  exact (drawer_holds_whole_cents fiftyCash H).
Defined.

Lemma sumOver_ext (f g : CartLine → Q) (ls : list CartLine) :
  (∀ l, (f l == g l)%Q) → (sumOver f ls == sumOver g ls)%Q.
Proof.
  intros H. induction ls as [|l ls IH]; [reflexivity|].
  by rewrite !sumOver_cons, IH, H.
Qed.

(** X10. The subtotal, discount, tax and grand total that the cashier page
    derives from a cart are the totals written on the receipt when that
    cart is settled. *)
Theorem page_totals_are_receipt_totals
    (faults : list (option string)) (rn : string) (r : CompleteReq)
    (s s' : Server) (rc : Receipt) :
  complete faults rn r s = (s', Ok rc) →
  ∃ cart,
    carts s !! cmp_cartId r = Some cart ∧
    Cashier.subtotal cart = totalBeforeDiscount rc ∧
    (Cashier.discountTotal cart == totalDiscount rc)%Q ∧
    (Cashier.taxTotal cart == totalTax rc)%Q ∧
    grandTotal cart = totalAmount rc.
Proof.
  intros E.
  destruct (complete_Ok_cart faults rn r s s' rc E) as (cart & Hc & Hl).
  pose proof (complete_outcomes faults rn r s s' cart _ Hc Hl E) as Ho.
  apply SettleOutcome_Ok in Ho as (created & -> & _).
  exists cart. simpl. split_and!; try done.
  - apply sumOver_ext. intros l. apply orZero_eq.
  - apply sumOver_ext. intros l. apply orZero_eq.
Qed.

Lemma page_totals_are_receipt_totals_witness :
  complete [] "R1" cashTender twoLineServer = (settledTwoLine, Ok settledReceipt) ∧
  ∃ cart,
    carts twoLineServer !! cmp_cartId cashTender = Some cart ∧
    Cashier.subtotal cart = totalBeforeDiscount settledReceipt ∧
    (Cashier.discountTotal cart == totalDiscount settledReceipt)%Q ∧
    (Cashier.taxTotal cart == totalTax settledReceipt)%Q ∧
    grandTotal cart = totalAmount settledReceipt.
Proof.
  assert (E : complete [] "R1" cashTender twoLineServer
              = (settledTwoLine, Ok settledReceipt)) by (vm_compute; reflexivity).
  split; [exact E|].
  exact (page_totals_are_receipt_totals [] "R1" cashTender twoLineServer
           settledTwoLine settledReceipt E).
Defined.

(** X2. Each scan is a line of its own: adding the same item twice to an
    open cart appends two equal lines after the lines already there, with
    the item id, the unit price of the item, discount 0 and the quantity as
    posted (1 when none is posted), whatever that quantity is. *)
Theorem add_never_merges (r : AddReq) (s : Server) (cart : Cart) (item : Item) :
  carts s !! add_cartId r = Some cart →
  lookupItem r (db s) = Some item →
  ∃ l cart2,
    snd (add r (fst (add r s))) = Ok cart2 ∧
    carts (fst (add r (fst (add r s)))) !! add_cartId r = Some cart2 ∧
    lines cart2 = lines cart ++ [l; l] ∧
    itemId l = item_id item ∧
    quantity l = numOr 1 (add_qty r) ∧
    unitPrice l = mrp item ∧
    discount l = 0%Q.
Proof.
  intros Hc Hi.
  rewrite (add_appends_a_new_line r s cart item Hc Hi). cbn [fst].
  set (l := newLine (db s) item (add_qty r)).
  set (s1 := mkServer _ _).
  assert (Hc1 : carts s1 !! add_cartId r
                = Some (mkCart (cartId cart) (lines cart ++ [l])))
    by apply lookup_insert_eq.
  rewrite (add_appends_a_new_line r s1 _ item Hc1 Hi).
  exists l, (mkCart (cartId cart) ((lines cart ++ [l]) ++ [l])).
  cbn [fst snd carts lines db]. split_and!; try done.
  - apply lookup_insert_eq.
  - by rewrite <- app_assoc.
Qed.

Lemma add_never_merges_witness :
  carts oneLineServer !! add_cartId scanRice = Some oneLineCart ∧
  lookupItem scanRice (db oneLineServer) = Some riceItem ∧
  ∃ l cart2,
    snd (add scanRice (fst (add scanRice oneLineServer))) = Ok cart2 ∧
    carts (fst (add scanRice (fst (add scanRice oneLineServer)))) !! add_cartId scanRice
      = Some cart2 ∧
    lines cart2 = lines oneLineCart ++ [l; l] ∧
    itemId l = item_id riceItem ∧
    quantity l = numOr 1 (add_qty scanRice) ∧
    unitPrice l = mrp riceItem ∧
    discount l = 0%Q.
Proof.
  assert (Hc : carts oneLineServer !! add_cartId scanRice = Some oneLineCart)
    by (vm_compute; reflexivity).
  assert (Hi : lookupItem scanRice (db oneLineServer) = Some riceItem)
    by (vm_compute; reflexivity).
  split_and!; [exact Hc|exact Hi|].
  exact (add_never_merges scanRice oneLineServer oneLineCart riceItem Hc Hi).
Defined.

(** X3. On an open cart, [add] answers "Item not found" and changes nothing
    when the item is not found; a barcode that is given and matches no
    barcode row gives that answer even when the request also carries an
    item id. *)
Theorem add_unknown_item_adds_nothing (r : AddReq) (s : Server) (cart : Cart) :
  carts s !! add_cartId r = Some cart →
  (lookupItem r (db s) = None → add r s = (s, Err 404 "Item not found")) ∧
  (∀ bc, truthyStr (add_barcode r) = Some bc → findBarcode (db s) bc = None →
         add r s = (s, Err 404 "Item not found")).
Proof.
  intros Hc. split.
  - by apply (add_unknown_item_answers_404 r s cart).
  - intros bc Hbc Hf. apply (add_unknown_item_answers_404 r s cart Hc).
    unfold lookupItem. by rewrite Hbc.
Qed.

Lemma add_unknown_item_adds_nothing_witness :
  carts oneLineServer !! add_cartId scanUnknownBarcode = Some oneLineCart ∧
  lookupItem scanUnknownBarcode (db oneLineServer) = None ∧
  add scanUnknownBarcode oneLineServer = (oneLineServer, Err 404 "Item not found").
Proof.
  assert (Hc : carts oneLineServer !! add_cartId scanUnknownBarcode
               = Some oneLineCart) by (vm_compute; reflexivity).
  assert (Hi : lookupItem scanUnknownBarcode (db oneLineServer) = None)
    by (vm_compute; reflexivity).
  split_and!; [exact Hc|exact Hi|].
  exact (proj1 (add_unknown_item_adds_nothing scanUnknownBarcode oneLineServer
                  oneLineCart Hc) Hi).
Defined.

